(** * The transaction bundle orchestrator and its record writers

    A shallow embedding of [src/helpers.ts], [src/schemas.ts],
    [src/db/schemas.ts], [src/db/index.ts] and [src/index.ts].

    - JavaScript numbers are modelled by [number]: the rationals extended
      with the two infinities and NaN, which is all the comparisons of the
      program can observe.
    - Strings are lists of 8-bit characters; [String.length] plays the role
      of the [length] property.
    - A [Date] is its time value, the milliseconds elapsed since the epoch.
    - An [async] function is a computation in the monad [M]: it threads the
      [World] (process environment, data service, random source, clock) and
      completes normally or abruptly, as an awaited promise resolves or
      rejects.
    - The libraries the program calls are modelled by what the program can
      observe of them: a zod schema by the issues it reports, in order; the
      data service by the way it settles each call, which may depend on the
      calls it has received; [Math.random] and the clock by the sequences
      of their values. *)

From Stdlib Require Import String Ascii List ZArith NArith QArith Bool Lia.
Import ListNotations.
Local Open Scope string_scope.
Local Open Scope Z_scope.

Set Implicit Arguments.

(* ================================================================== *)
(** ** JavaScript numbers *)

Inductive number : Type :=
| NaN
| NegInfinity
| Finite (q : Q)
| Infinity.

Definition num (z : Z) : number := Finite (inject_Z z).

(** [a < b] *)
Definition num_ltb (a b : number) : bool :=
  match a, b with
  | NaN, _ | _, NaN => false
  | _, NegInfinity => false
  | NegInfinity, _ => true
  | Infinity, _ => false
  | Finite _, Infinity => true
  | Finite x, Finite y => negb (Qle_bool y x)
  end.

(** [a > b] *)
Definition num_gtb (a b : number) : bool := num_ltb b a.

(** [a === b] *)
Definition num_eqb (a b : number) : bool :=
  match a, b with
  | NegInfinity, NegInfinity => true
  | Infinity, Infinity => true
  | Finite x, Finite y => Qeq_bool x y
  | _, _ => false
  end.

Definition isNaN (a : number) : bool :=
  match a with NaN => true | _ => false end.

(* ================================================================== *)
(** ** Strings, hexadecimal digits and buffers *)

Definition isSome {A} (o : option A) : bool :=
  match o with Some _ => true | None => false end.

(** [n.toString(16)] for a digit [n < 16]; [n.toString(10)] for [n < 10]. *)
Definition digitChar (n : nat) : ascii :=
  match n with
  | 0 => "0" | 1 => "1" | 2 => "2" | 3 => "3" | 4 => "4"
  | 5 => "5" | 6 => "6" | 7 => "7" | 8 => "8" | 9 => "9"
  | 10 => "a" | 11 => "b" | 12 => "c" | 13 => "d" | 14 => "e"
  | _ => "f"
  end%char%nat.

Definition isDigit (c : ascii) : bool :=
  let n := nat_of_ascii c in (48 <=? n)%nat && (n <=? 57)%nat.

(** The value of a hexadecimal digit, in either case. *)
Definition hexVal (c : ascii) : option N :=
  let n := N_of_ascii c in
  if (48 <=? n)%N && (n <=? 57)%N then Some (n - 48)%N
  else if (97 <=? n)%N && (n <=? 102)%N then Some (n - 87)%N
  else if (65 <=? n)%N && (n <=? 70)%N then Some (n - 55)%N
  else None.

Definition isHexString (s : string) : bool :=
  forallb (fun c => isSome (hexVal c)) (list_ascii_of_string s).

Definition Buffer : Type := list N.

(** [Buffer.from(s, 'hex')]: decodes pairs of digits and stops at the first
    pair that is not hexadecimal; a trailing single character is dropped. *)
Fixpoint Buffer_from_hex (s : string) : Buffer :=
  match s with
  | String hi (String lo rest) =>
      match hexVal hi, hexVal lo with
      | Some h, Some l => (16 * h + l)%N :: Buffer_from_hex rest
      | _, _ => []
      end
  | _ => []
  end.

(** [s.slice(0, n)] *)
Definition slice0 (n : nat) (s : string) : string := substring 0 n s.

(** [s.replace(c, r)] for one-character strings: the first occurrence only. *)
Fixpoint replace (c r : ascii) (s : string) : string :=
  match s with
  | EmptyString => EmptyString
  | String x rest =>
      if Ascii.eqb x c then String r rest else String x (replace c r rest)
  end.

Fixpoint repeatChar (c : ascii) (n : nat) : string :=
  match n with O => EmptyString | S k => String c (repeatChar c k) end.

(* ================================================================== *)
(** ** Dates *)

(** The time value of a [Date]: milliseconds since 1970-01-01T00:00:00Z. *)
Definition Date : Type := Z.

Definition msPerDay : Z := 86400000.

(** Civil date of a day number (days since the epoch), proleptic Gregorian
    calendar: year, month (1..12), day of the month (1..31). *)
Definition civilFromDays (day : Z) : Z * Z * Z :=
  let z := day + 719468 in
  let era := z / 146097 in
  let doe := z - era * 146097 in
  let yoe := (doe - doe / 1460 + doe / 36524 - doe / 146096) / 365 in
  let doy := doe - (365 * yoe + yoe / 4 - yoe / 100) in
  let mp := (5 * doy + 2) / 153 in
  let d := doy - (153 * mp + 2) / 5 + 1 in
  let m := if mp <? 10 then mp + 3 else mp - 9 in
  let y := yoe + era * 400 + (if m <=? 2 then 1 else 0) in
  (y, m, d).

Definition YearFromTime (t : Date) : Z := fst (fst (civilFromDays (t / msPerDay))).
Definition MonthFromTime (t : Date) : Z := snd (fst (civilFromDays (t / msPerDay))).
Definition DateFromTime (t : Date) : Z := snd (civilFromDays (t / msPerDay)).
Definition HourFromTime (t : Date) : Z := (t / 3600000) mod 24.
Definition MinFromTime (t : Date) : Z := (t / 60000) mod 60.
Definition SecFromTime (t : Date) : Z := (t / 1000) mod 60.
Definition msFromTime (t : Date) : Z := t mod 1000.

Definition dec (z : Z) : ascii := digitChar (Z.to_nat (z mod 10)).

(** Fixed-width decimal renderings of a non-negative integer. *)
Definition pad2 (z : Z) : string :=
  String (dec (z / 10)) (String (dec z) EmptyString).
Definition pad3 (z : Z) : string := String (dec (z / 100)) (pad2 z).
Definition pad4 (z : Z) : string := String (dec (z / 1000)) (pad3 z).
Definition pad6 (z : Z) : string :=
  String (dec (z / 100000)) (String (dec (z / 10000)) (pad4 z)).

(** [d.toISOString()]: [YYYY-MM-DDTHH:mm:ss.sssZ], the year written with a
    sign and six digits when it is outside 0..9999. *)
Definition toISOString (t : Date) : string :=
  let y := YearFromTime t in
  let year :=
    if (0 <=? y) && (y <=? 9999) then pad4 y
    else if y <? 0 then String "-" (pad6 (- y)) else String "+" (pad6 y) in
  year ++ "-" ++ pad2 (MonthFromTime t) ++ "-" ++ pad2 (DateFromTime t)
       ++ "T" ++ pad2 (HourFromTime t) ++ ":" ++ pad2 (MinFromTime t)
       ++ ":" ++ pad2 (SecFromTime t) ++ "." ++ pad3 (msFromTime t) ++ "Z".

(** The textual shape [YYYY-MM-DD HH:MM:SS]. *)
Definition isTimestampFormat (s : string) : bool :=
  match list_ascii_of_string s with
  | [y1; y2; y3; y4; s1; m1; m2; s2; d1; d2; s3; h1; h2; s4; n1; n2; s5; c1; c2] =>
      forallb isDigit [y1; y2; y3; y4; m1; m2; d1; d2; h1; h2; n1; n2; c1; c2]
      && Ascii.eqb s1 "-" && Ascii.eqb s2 "-" && Ascii.eqb s3 " "
      && Ascii.eqb s4 ":" && Ascii.eqb s5 ":"
  | _ => false
  end.


(* ================================================================== *)
(** ** Validation issues and exceptions *)

Inductive ZodIssueCode : Type :=
| invalid_type
| invalid_enum_value
| too_small
| too_big.

Record ZodIssue : Type := mkIssue {
  code : ZodIssueCode;
  path : list string
}.

(** The values the program can throw: a [ZodError] carrying its issues, or
    a plain [Error] with its message. *)
Inductive Exn : Type :=
| ZodError (issues : list ZodIssue)
| Error (message : string).

(* ================================================================== *)
(** ** Requests of the data service *)

Record Field : Type := mkField {
  blobValue : option Buffer;
  doubleValue : option number;
  stringValue : option string;
  isNull : option bool
}.

Definition blob (b : Buffer) : Field := mkField (Some b) None None None.
Definition double (d : number) : Field := mkField None (Some d) None None.
Definition text (s : string) : Field := mkField None None (Some s) None.

Record SqlParameter : Type := mkParam {
  name : string;
  value : Field
}.

Module ExecuteStatementRequest.
Record t : Type := mk {
  database : string;
  secretArn : string;
  resourceArn : string;
  transactionId : string;
  sql : string;
  parameters : list SqlParameter
}.
End ExecuteStatementRequest.

Module BatchExecuteStatementRequest.
Record t : Type := mk {
  database : string;
  secretArn : string;
  resourceArn : string;
  transactionId : string;
  sql : string;
  parameterSets : list (list SqlParameter)
}.
End BatchExecuteStatementRequest.

Inductive RdsCall : Type :=
| ExecuteStatement (request : ExecuteStatementRequest.t)
| BatchExecuteStatement (request : BatchExecuteStatementRequest.t).

(** The five writer operations.  Every statement of the program carries the
    same placeholder SQL text, so each logged call is labelled with the
    operation that issued it. *)
Inductive Operation : Type :=
| InsertPayment
| InsertFedNowPayment
| InsertLedgerEntry
| InsertPromotionLedgerEntry
| InsertTransactionRecord.

Definition Operation_eqb (a b : Operation) : bool :=
  match a, b with
  | InsertPayment, InsertPayment
  | InsertFedNowPayment, InsertFedNowPayment
  | InsertLedgerEntry, InsertLedgerEntry
  | InsertPromotionLedgerEntry, InsertPromotionLedgerEntry
  | InsertTransactionRecord, InsertTransactionRecord => true
  | _, _ => false
  end.

(** One call received by the data service: who issued it, the request, and
    how its promise settled ([None]: resolved, [Some e]: rejected with [e]). *)
Record LogEntry : Type := mkEntry {
  issuer : Operation;
  call : RdsCall;
  outcome : option Exn
}.

(** The parameter called [n] of a parameter list. *)
Fixpoint param (n : string) (ps : list SqlParameter) : option Field :=
  match ps with
  | [] => None
  | p :: rest => if String.eqb (name p) n then Some (value p) else param n rest
  end.

Definition callParam (n : string) (c : RdsCall) : option Field :=
  match c with
  | ExecuteStatement r => param n (ExecuteStatementRequest.parameters r)
  | BatchExecuteStatement _ => None
  end.

(* ================================================================== *)
(** ** The world and the monad of asynchronous computations *)

(** What the program cannot control: the process environment, the data
    service, the random source and the clock. *)
Record Environment : Type := mkEnvironment {
  processEnv : string -> option string;          (* process.env *)
  rdsResponse : list LogEntry -> RdsCall -> option Exn;
                         (* how the service settles a call, given the calls
                            it has received before *)
  mathRandom : nat -> N; (* the successive draws of Math.random, as 53-bit
                            numerators *)
  systemClock : nat -> Date           (* the successive readings of the clock *)
}.

Record World : Type := mkWorld {
  environment : Environment;
  rdsLog : list LogEntry;             (* calls received so far, oldest first *)
  randomDraws : nat;                  (* draws consumed so far *)
  clockReads : nat                    (* clock readings consumed so far *)
}.

Inductive Completion (A : Type) : Type :=
| Normal (a : A)
| Throw (e : Exn).
Arguments Throw {A} e.

Definition M (A : Type) : Type := World -> Completion A * World.

Definition ret {A} (a : A) : M A := fun w => (Normal a, w).

Definition throw {A} (e : Exn) : M A := fun w => (Throw e, w).

Definition bind {A B} (m : M A) (f : A -> M B) : M B :=
  fun w =>
    match m w with
    | (Normal a, w') => f a w'
    | (Throw e, w') => (Throw e, w')
    end.

Declare Scope async_scope.
Delimit Scope async_scope with async.
Notation "x <- m ;; k" := (bind m (fun x => k))
  (at level 61, m at next level, right associativity) : async_scope.
Notation "m ;; k" := (bind m (fun _ => k))
  (at level 61, right associativity) : async_scope.
Local Open Scope async_scope.

Definition isNormal {A} (c : Completion A) : bool :=
  match c with Normal _ => true | Throw _ => false end.

(** [Math.random()], as the numerator of a fraction over 2^53. *)
Definition Math_random : M N :=
  fun w =>
    (Normal (mathRandom (environment w) (randomDraws w) mod 2 ^ 53)%N,
     mkWorld (environment w) (rdsLog w) (S (randomDraws w)) (clockReads w)).

(** [new Date()] *)
Definition new_Date : M Date :=
  fun w =>
    (Normal (systemClock (environment w) (clockReads w)),
     mkWorld (environment w) (rdsLog w) (randomDraws w) (S (clockReads w))).

(** A call of the data service followed by [.promise()] and [await]. *)
Definition rdsCall (op : Operation) (c : RdsCall) : M unit :=
  fun w =>
    let settled := rdsResponse (environment w) (rdsLog w) c in
    let w' := mkWorld (environment w) (rdsLog w ++ [mkEntry op c settled])
                      (randomDraws w) (clockReads w) in
    match settled with
    | None => (Normal tt, w')
    | Some e => (Throw e, w')
    end.

Definition RDS_executeStatement (op : Operation)
    (request : ExecuteStatementRequest.t) : M unit :=
  rdsCall op (ExecuteStatement request).

Definition RDS_batchExecuteStatement (op : Operation)
    (request : BatchExecuteStatementRequest.t) : M unit :=
  rdsCall op (BatchExecuteStatement request).

(* ================================================================== *)
(** ** Helpers ([src/helpers.ts]) *)

Definition getEnvVariable (name : string) : M string :=
  fun w =>
    match processEnv (environment w) name with
    | Some value => (Normal value, w)
    | None => (Throw (Error ("Environment variable " ++ name ++ " not set")), w)
    end.

(** The loop of [genId], [n] iterations left. *)
Fixpoint genId_loop (n : nat) (result : string) : M string :=
  match n with
  | O => ret result
  | S k =>
      r <- Math_random ;;
      let randomHexDigit := digitChar (N.to_nat (r * 16 / 2 ^ 53)) in
      genId_loop k (result ++ String randomHexDigit EmptyString)
  end.

Definition genId (length : nat) : M string := genId_loop length "".

Definition formatDate (date : Date) : M string :=
  now <- new_Date ;;
  ret (replace "T" " " (slice0 19 (toISOString now))).

(* ================================================================== *)
(** ** Types ([src/types/index.ts]) *)

Module PaymentMethod.
Definition FedNow : number := num 0.
Definition Card : number := num 1.
End PaymentMethod.

Module PaymentStatus.
Definition COMPLETE : number := num 4.
Definition PENDING : number := num 5.
End PaymentStatus.

Module UserPurchaseInformation.
Record t : Type := mk {
  payerId : string;
  payeeId : string;
  developerId : string;
  amount : number;
  interactionTypeId : number;
  paymentMethod : number;
  payerAccountId : option string;
  payeeAccountId : option string
}.
End UserPurchaseInformation.

Module PromotionInformation.
Record t : Type := mk {
  promoAmount : option number
}.
End PromotionInformation.

Inductive NullableString : Type :=
| null
| str (s : string).

(** The two optional members are absent ([None]) until they are assigned;
    the three nullable ones always exist and start as [null]. *)
Record IdObject : Type := mkIdObject {
  primaryPaymentID : NullableString;
  customerLedgerEntryID : NullableString;
  pursTransactionID : NullableString;
  primaryFedNowPaymentID : option string;
  promotionLedgerEntryID : option string
}.

Module ExecuteStandardPTOperationsParams.
Record t : Type := mk {
  userPurchaseInformation : UserPurchaseInformation.t;
  promotionInformation : PromotionInformation.t;
  sqlTransactionId : string
}.
End ExecuteStandardPTOperationsParams.

(* ================================================================== *)
(** ** Schema combinators (zod)

    A schema maps the path of a value and the value to the issues it
    raises, in the order zod reports them; an object schema reports the
    issues of its keys in the order the keys are declared. *)

Local Open Scope list_scope.

Definition Schema (A : Type) : Type := list string -> A -> list ZodIssue.

Definition z_string : Schema string := fun _ _ => [].

Definition z_string_length (len : nat) : Schema string :=
  fun path s =>
    if (len <? String.length s)%nat then [mkIssue too_big path]
    else if (String.length s <? len)%nat then [mkIssue too_small path]
    else [].

Definition z_number : Schema number :=
  fun path x => if isNaN x then [mkIssue invalid_type path] else [].

Definition z_number_nonnegative : Schema number :=
  fun path x =>
    if isNaN x then [mkIssue invalid_type path]
    else if num_ltb x (num 0) then [mkIssue too_small path]
    else [].

Definition z_nativeEnum (values : list number) : Schema number :=
  fun path x =>
    if isNaN x then [mkIssue invalid_type path]
    else if existsb (num_eqb x) values then []
    else [mkIssue invalid_enum_value path].

Definition z_optional {A} (inner : Schema A) : Schema (option A) :=
  fun path o => match o with None => [] | Some v => inner path v end.

Definition z_array_string_nonempty : Schema (list string) :=
  fun path l => match l with [] => [mkIssue too_small path] | _ => [] end.

(** [schema.parse(data)] *)
Definition parse {A} (schema : Schema A) (data : A) : M A :=
  match schema [] data with
  | [] => ret data
  | issues => throw (ZodError issues)
  end.

(* ================================================================== *)
(** ** Schemas of the orchestrator ([src/schemas.ts]) *)

Definition UserPurchaseInformationSchema : Schema UserPurchaseInformation.t :=
  fun path v =>
    z_string_length 32 (path ++ ["payeeId"]) (UserPurchaseInformation.payeeId v)
    ++ z_string_length 32 (path ++ ["payerId"]) (UserPurchaseInformation.payerId v)
    ++ z_optional (z_string_length 32) (path ++ ["payerAccountId"])
         (UserPurchaseInformation.payerAccountId v)
    ++ z_optional (z_string_length 32) (path ++ ["payeeAccountId"])
         (UserPurchaseInformation.payeeAccountId v)
    ++ z_string_length 32 (path ++ ["developerId"])
         (UserPurchaseInformation.developerId v)
    ++ z_number_nonnegative (path ++ ["amount"]) (UserPurchaseInformation.amount v)
    ++ z_number (path ++ ["interactionTypeId"])
         (UserPurchaseInformation.interactionTypeId v)
    ++ z_nativeEnum [PaymentMethod.FedNow; PaymentMethod.Card]
         (path ++ ["paymentMethod"]) (UserPurchaseInformation.paymentMethod v).

Definition PromotionInformationSchema : Schema PromotionInformation.t :=
  fun path v =>
    z_optional z_number_nonnegative (path ++ ["promoAmount"])
      (PromotionInformation.promoAmount v).

Definition ExecuteStandardPTOperationsParamsSchema
  : Schema ExecuteStandardPTOperationsParams.t :=
  fun path v =>
    UserPurchaseInformationSchema (path ++ ["userPurchaseInformation"])
      (ExecuteStandardPTOperationsParams.userPurchaseInformation v)
    ++ PromotionInformationSchema (path ++ ["promotionInformation"])
         (ExecuteStandardPTOperationsParams.promotionInformation v)
    ++ z_string_length 32 (path ++ ["sqlTransactionId"])
         (ExecuteStandardPTOperationsParams.sqlTransactionId v).

(* ================================================================== *)
(** ** Parameter types and schemas of the writers
       ([src/db/types.ts], [src/db/schemas.ts]) *)

Module InsertPaymentParams.
Record t : Type := mk {
  payerId : string;
  payeeId : string;
  developerId : string;
  amount : number;
  interactionTypeId : number;
  paymentMethod : number;
  sqlTransactionId : string
}.
End InsertPaymentParams.

Module InsertFedNowPaymentParams.
Record t : Type := mk {
  paymentId : string;
  payerAccountId : string;
  payeeAccountId : string;
  sqlTransactionId : string
}.
End InsertFedNowPaymentParams.

Module InsertLedgerEntryParams.
Record t : Type := mk {
  payerId : string;
  payeeId : string;
  developerId : string;
  amount : number;
  interactionTypeId : number;
  sqlTransactionId : string
}.
End InsertLedgerEntryParams.

Module InsertPromotionLedgerEntryParams.
Record t : Type := mk {
  developerId : string;
  payerId : string;
  payeeId : string;
  promoAmount : number;
  interactionTypeId : number;
  sqlTransactionId : string
}.
End InsertPromotionLedgerEntryParams.

Module InsertTransactionRecordParams.
Record t : Type := mk {
  ledgerEntries : list string;
  sqlTransactionId : string
}.
End InsertTransactionRecordParams.

Definition InsertPaymentParamsSchema : Schema InsertPaymentParams.t :=
  fun path v =>
    z_string_length 32 (path ++ ["payerId"]) (InsertPaymentParams.payerId v)
    ++ z_string_length 32 (path ++ ["payeeId"]) (InsertPaymentParams.payeeId v)
    ++ z_string_length 32 (path ++ ["developerId"])
         (InsertPaymentParams.developerId v)
    ++ z_number_nonnegative (path ++ ["amount"]) (InsertPaymentParams.amount v)
    ++ z_number (path ++ ["interactionTypeId"])
         (InsertPaymentParams.interactionTypeId v)
    ++ z_nativeEnum [PaymentMethod.FedNow; PaymentMethod.Card]
         (path ++ ["paymentMethod"]) (InsertPaymentParams.paymentMethod v)
    ++ z_string_length 32 (path ++ ["sqlTransactionId"])
         (InsertPaymentParams.sqlTransactionId v).

Definition InsertFedNowPaymentParamsSchema : Schema InsertFedNowPaymentParams.t :=
  fun path v =>
    z_string_length 32 (path ++ ["paymentId"])
      (InsertFedNowPaymentParams.paymentId v)
    ++ z_string_length 32 (path ++ ["payerAccountId"])
         (InsertFedNowPaymentParams.payerAccountId v)
    ++ z_string_length 32 (path ++ ["payeeAccountId"])
         (InsertFedNowPaymentParams.payeeAccountId v)
    ++ z_string_length 32 (path ++ ["sqlTransactionId"])
         (InsertFedNowPaymentParams.sqlTransactionId v).

Definition InsertLedgerEntryParamsSchema : Schema InsertLedgerEntryParams.t :=
  fun path v =>
    z_string_length 32 (path ++ ["payerId"]) (InsertLedgerEntryParams.payerId v)
    ++ z_string_length 32 (path ++ ["payeeId"]) (InsertLedgerEntryParams.payeeId v)
    ++ z_string_length 32 (path ++ ["developerId"])
         (InsertLedgerEntryParams.developerId v)
    ++ z_number (path ++ ["amount"]) (InsertLedgerEntryParams.amount v)
    ++ z_number (path ++ ["interactionTypeId"])
         (InsertLedgerEntryParams.interactionTypeId v)
    ++ z_string (path ++ ["sqlTransactionId"])
         (InsertLedgerEntryParams.sqlTransactionId v).

Definition InsertPromotionLedgerEntryParamsSchema
  : Schema InsertPromotionLedgerEntryParams.t :=
  fun path v =>
    z_string_length 32 (path ++ ["developerId"])
      (InsertPromotionLedgerEntryParams.developerId v)
    ++ z_string_length 32 (path ++ ["payerId"])
         (InsertPromotionLedgerEntryParams.payerId v)
    ++ z_string_length 32 (path ++ ["payeeId"])
         (InsertPromotionLedgerEntryParams.payeeId v)
    ++ z_number_nonnegative (path ++ ["promoAmount"])
         (InsertPromotionLedgerEntryParams.promoAmount v)
    ++ z_number (path ++ ["interactionTypeId"])
         (InsertPromotionLedgerEntryParams.interactionTypeId v)
    ++ z_string_length 32 (path ++ ["sqlTransactionId"])
         (InsertPromotionLedgerEntryParams.sqlTransactionId v).

Definition InsertTransactionRecordParamsSchema
  : Schema InsertTransactionRecordParams.t :=
  fun path v =>
    z_array_string_nonempty (path ++ ["ledgerEntries"])
      (InsertTransactionRecordParams.ledgerEntries v)
    ++ z_string_length 32 (path ++ ["sqlTransactionId"])
         (InsertTransactionRecordParams.sqlTransactionId v).

(* ================================================================== *)
(** ** The record writers ([src/db/index.ts]) *)

Definition sqlPlaceholder : string := "INSERT ...".

(** The [statementParams] literal of each writer, its effects (identifier,
    environment lookups, timestamp) already evaluated, in source order. *)

Definition insertPayment_statementParams
    (database secretArn resourceArn : string) (params : InsertPaymentParams.t)
    (paymentId : string) (datePaid : option string)
  : ExecuteStatementRequest.t :=
  let payerId := InsertPaymentParams.payerId params in
  let payeeId := InsertPaymentParams.payeeId params in
  let developerId := InsertPaymentParams.developerId params in
  let amount := InsertPaymentParams.amount params in
  let interactionTypeId := InsertPaymentParams.interactionTypeId params in
  let paymentMethod := InsertPaymentParams.paymentMethod params in
  let sqlTransactionId := InsertPaymentParams.sqlTransactionId params in
  ExecuteStatementRequest.mk database secretArn resourceArn sqlTransactionId
    sqlPlaceholder
    [ mkParam "paymentId" (blob (Buffer_from_hex paymentId));
      mkParam "payerId" (blob (Buffer_from_hex payerId));
      mkParam "payeeId" (blob (Buffer_from_hex payeeId));
      mkParam "developerId" (blob (Buffer_from_hex developerId));
      mkParam "paymentAmount" (double amount);
      mkParam "interactionTypeId" (double interactionTypeId);
      mkParam "paymentMethod" (double paymentMethod);
      mkParam "paymentStatus"
        (double
           (if negb (num_eqb paymentMethod PaymentMethod.FedNow)
               || num_eqb amount (num 0)
            then PaymentStatus.COMPLETE else PaymentStatus.PENDING));
      mkParam "datePaid"
        (mkField None None datePaid
           (Some (num_eqb paymentMethod PaymentMethod.FedNow
                  && num_gtb amount (num 0)))) ].

Definition insertFedNowPayment_statementParams
    (database secretArn resourceArn : string)
    (params : InsertFedNowPaymentParams.t) (fedNowPaymentId : string)
  : ExecuteStatementRequest.t :=
  let paymentId := InsertFedNowPaymentParams.paymentId params in
  let payerAccountId := InsertFedNowPaymentParams.payerAccountId params in
  let payeeAccountId := InsertFedNowPaymentParams.payeeAccountId params in
  let sqlTransactionId := InsertFedNowPaymentParams.sqlTransactionId params in
  ExecuteStatementRequest.mk database secretArn resourceArn sqlTransactionId
    sqlPlaceholder
    [ mkParam "fedNowPaymentId" (blob (Buffer_from_hex fedNowPaymentId));
      mkParam "paymentId" (blob (Buffer_from_hex paymentId));
      mkParam "payerAccountId" (text payerAccountId);
      mkParam "payeeAccountId" (text payeeAccountId) ].

Definition insertLedgerEntry_statementParams
    (database secretArn resourceArn : string)
    (params : InsertLedgerEntryParams.t) (ledgerId : string)
  : ExecuteStatementRequest.t :=
  let payerId := InsertLedgerEntryParams.payerId params in
  let payeeId := InsertLedgerEntryParams.payeeId params in
  let developerId := InsertLedgerEntryParams.developerId params in
  let amount := InsertLedgerEntryParams.amount params in
  let interactionTypeId := InsertLedgerEntryParams.interactionTypeId params in
  let sqlTransactionId := InsertLedgerEntryParams.sqlTransactionId params in
  ExecuteStatementRequest.mk database secretArn resourceArn sqlTransactionId
    sqlPlaceholder
    [ mkParam "ledgerId" (blob (Buffer_from_hex ledgerId));
      mkParam "payerId" (blob (Buffer_from_hex payerId));
      mkParam "payeeId" (blob (Buffer_from_hex payeeId));
      mkParam "amount" (double amount);
      mkParam "interactionTypeId" (double interactionTypeId);
      mkParam "developerId" (blob (Buffer_from_hex developerId)) ].

Definition insertPromotionLedgerEntry_statementParams
    (database secretArn resourceArn : string)
    (params : InsertPromotionLedgerEntryParams.t) (ledgerId : string)
  : ExecuteStatementRequest.t :=
  let developerId := InsertPromotionLedgerEntryParams.developerId params in
  let payeeId := InsertPromotionLedgerEntryParams.payeeId params in
  let payerId := InsertPromotionLedgerEntryParams.payerId params in
  let promoAmount := InsertPromotionLedgerEntryParams.promoAmount params in
  let interactionTypeId :=
    InsertPromotionLedgerEntryParams.interactionTypeId params in
  let sqlTransactionId :=
    InsertPromotionLedgerEntryParams.sqlTransactionId params in
  ExecuteStatementRequest.mk database secretArn resourceArn sqlTransactionId
    sqlPlaceholder
    [ mkParam "ledgerId" (blob (Buffer_from_hex ledgerId));
      mkParam "payerId" (blob (Buffer_from_hex payerId));
      mkParam "payeeId" (blob (Buffer_from_hex payeeId));
      mkParam "developerId" (blob (Buffer_from_hex developerId));
      mkParam "amount" (double promoAmount);
      mkParam "interactionTypeId" (double interactionTypeId) ].

Definition insertTransactionRecord_statementParams
    (database secretArn resourceArn : string)
    (params : InsertTransactionRecordParams.t) (pursTransactionId : string)
  : BatchExecuteStatementRequest.t :=
  let ledgerEntries := InsertTransactionRecordParams.ledgerEntries params in
  let sqlTransactionId := InsertTransactionRecordParams.sqlTransactionId params in
  let parameterSets :=
    map (fun ledgerEntry =>
           [ mkParam "transactionId" (blob (Buffer_from_hex pursTransactionId));
             mkParam "ledgerId" (blob (Buffer_from_hex ledgerEntry)) ])
        ledgerEntries in
  BatchExecuteStatementRequest.mk database secretArn resourceArn
    sqlTransactionId sqlPlaceholder parameterSets.

(** The interface of the writers ([DB] of [src/db/types.ts]). *)
Record DB : Type := mkDB {
  insertPayment : InsertPaymentParams.t -> M string;
  insertFedNowPayment : InsertFedNowPaymentParams.t -> M string;
  insertLedgerEntry : InsertLedgerEntryParams.t -> M string;
  insertPromotionLedgerEntry : InsertPromotionLedgerEntryParams.t -> M string;
  insertTransactionRecord : InsertTransactionRecordParams.t -> M string
}.

Section DatabaseOperations.

(** The dependency of the factory. *)
Variable genId : nat -> M string.

Definition db_insertPayment (params : InsertPaymentParams.t) : M string :=
  parse InsertPaymentParamsSchema params ;;
  parsed <- parse InsertPaymentParamsSchema params ;;
  let amount := InsertPaymentParams.amount parsed in
  let paymentMethod := InsertPaymentParams.paymentMethod parsed in
  paymentId <- genId 32 ;;
  database <- getEnvVariable "DATABASE" ;;
  secretArn <- getEnvVariable "SECRET_ARN" ;;
  resourceArn <- getEnvVariable "CLUSTER_ARN" ;;
  datePaid <-
    (if num_eqb paymentMethod PaymentMethod.FedNow && num_gtb amount (num 0)
     then ret None
     else (date <- new_Date ;;
           formatted <- formatDate date ;;
           ret (Some formatted))) ;;
  RDS_executeStatement InsertPayment
    (insertPayment_statementParams database secretArn resourceArn parsed
       paymentId datePaid) ;;
  ret paymentId.

Definition db_insertFedNowPayment (params : InsertFedNowPaymentParams.t)
  : M string :=
  parse InsertFedNowPaymentParamsSchema params ;;
  fedNowPaymentId <- genId 32 ;;
  database <- getEnvVariable "DATABASE" ;;
  secretArn <- getEnvVariable "SECRET_ARN" ;;
  resourceArn <- getEnvVariable "CLUSTER_ARN" ;;
  RDS_executeStatement InsertFedNowPayment
    (insertFedNowPayment_statementParams database secretArn resourceArn
       params fedNowPaymentId) ;;
  ret fedNowPaymentId.

Definition db_insertLedgerEntry (params : InsertLedgerEntryParams.t)
  : M string :=
  parse InsertLedgerEntryParamsSchema params ;;
  ledgerId <- genId 32 ;;
  database <- getEnvVariable "DATABASE" ;;
  secretArn <- getEnvVariable "SECRET_ARN" ;;
  resourceArn <- getEnvVariable "CLUSTER_ARN" ;;
  RDS_executeStatement InsertLedgerEntry
    (insertLedgerEntry_statementParams database secretArn resourceArn
       params ledgerId) ;;
  ret ledgerId.

Definition db_insertPromotionLedgerEntry
    (params : InsertPromotionLedgerEntryParams.t) : M string :=
  parse InsertPromotionLedgerEntryParamsSchema params ;;
  ledgerId <- genId 32 ;;
  database <- getEnvVariable "DATABASE" ;;
  secretArn <- getEnvVariable "SECRET_ARN" ;;
  resourceArn <- getEnvVariable "CLUSTER_ARN" ;;
  RDS_executeStatement InsertPromotionLedgerEntry
    (insertPromotionLedgerEntry_statementParams database secretArn
       resourceArn params ledgerId) ;;
  ret ledgerId.

Definition db_insertTransactionRecord
    (params : InsertTransactionRecordParams.t) : M string :=
  parse InsertTransactionRecordParamsSchema params ;;
  pursTransactionId <- genId 32 ;;
  database <- getEnvVariable "DATABASE" ;;
  secretArn <- getEnvVariable "SECRET_ARN" ;;
  resourceArn <- getEnvVariable "CLUSTER_ARN" ;;
  RDS_batchExecuteStatement InsertTransactionRecord
    (insertTransactionRecord_statementParams database secretArn resourceArn
       params pursTransactionId) ;;
  ret pursTransactionId.

Definition createDatabaseOperations : DB :=
  mkDB db_insertPayment db_insertFedNowPayment db_insertLedgerEntry
       db_insertPromotionLedgerEntry db_insertTransactionRecord.

End DatabaseOperations.

(* ================================================================== *)
(** ** The orchestrator ([src/index.ts]) *)

(** The condition of the settlement branch. *)
Definition fedNowCondition (u : UserPurchaseInformation.t) : bool :=
  num_eqb (UserPurchaseInformation.paymentMethod u) PaymentMethod.FedNow
  && num_gtb (UserPurchaseInformation.amount u) (num 0)
  && isSome (UserPurchaseInformation.payerAccountId u)
  && isSome (UserPurchaseInformation.payeeAccountId u).

(** The condition of the promotion branch. *)
Definition promotionCondition (p : PromotionInformation.t) : bool :=
  match PromotionInformation.promoAmount p with
  | Some promoAmount => num_gtb promoAmount (num 0)
  | None => false
  end.

Section Orchestrator.

Variable db : DB.

Definition executeStandardPTOperations
    (params : ExecuteStandardPTOperationsParams.t) : M IdObject :=
  parse ExecuteStandardPTOperationsParamsSchema params ;;
  let u := ExecuteStandardPTOperationsParams.userPurchaseInformation params in
  let payeeId := UserPurchaseInformation.payeeId u in
  let payerId := UserPurchaseInformation.payerId u in
  let payerAccountId := UserPurchaseInformation.payerAccountId u in
  let payeeAccountId := UserPurchaseInformation.payeeAccountId u in
  let developerId := UserPurchaseInformation.developerId u in
  let amount := UserPurchaseInformation.amount u in
  let interactionTypeId := UserPurchaseInformation.interactionTypeId u in
  let paymentMethod := UserPurchaseInformation.paymentMethod u in
  let promoAmount :=
    PromotionInformation.promoAmount
      (ExecuteStandardPTOperationsParams.promotionInformation params) in
  let sqlTransactionId :=
    ExecuteStandardPTOperationsParams.sqlTransactionId params in
  let ledgerEntries : list string := [] in
  let idObj := mkIdObject null null null None None in
  paymentId <-
    insertPayment db
      (InsertPaymentParams.mk payerId payeeId developerId amount
         interactionTypeId paymentMethod sqlTransactionId) ;;
  let idObj :=
    mkIdObject (str paymentId) (customerLedgerEntryID idObj)
      (pursTransactionID idObj) (primaryFedNowPaymentID idObj)
      (promotionLedgerEntryID idObj) in
  (* the two account identifiers are strings where the condition holds *)
  idObj <-
    (match payerAccountId, payeeAccountId with
     | Some payerAccount, Some payeeAccount =>
         if num_eqb paymentMethod PaymentMethod.FedNow
            && num_gtb amount (num 0)
         then
           fedNowPaymentId <-
             insertFedNowPayment db
               (InsertFedNowPaymentParams.mk paymentId payerAccount
                  payeeAccount sqlTransactionId) ;;
           ret (mkIdObject (primaryPaymentID idObj)
                  (customerLedgerEntryID idObj) (pursTransactionID idObj)
                  (Some fedNowPaymentId) (promotionLedgerEntryID idObj))
         else ret idObj
     | _, _ => ret idObj
     end) ;;
  ledgerId <-
    insertLedgerEntry db
      (InsertLedgerEntryParams.mk payerId payeeId developerId amount
         interactionTypeId sqlTransactionId) ;;
  let idObj :=
    mkIdObject (primaryPaymentID idObj) (str ledgerId)
      (pursTransactionID idObj) (primaryFedNowPaymentID idObj)
      (promotionLedgerEntryID idObj) in
  let ledgerEntries := ledgerEntries ++ [ledgerId] in
  state <-
    (match promoAmount with
     | Some promo =>
         if num_gtb promo (num 0)
         then
           promotionLedgerId <-
             insertPromotionLedgerEntry db
               (InsertPromotionLedgerEntryParams.mk developerId payerId
                  payeeId promo interactionTypeId sqlTransactionId) ;;
           ret (ledgerEntries ++ [promotionLedgerId],
                mkIdObject (primaryPaymentID idObj)
                  (customerLedgerEntryID idObj) (pursTransactionID idObj)
                  (primaryFedNowPaymentID idObj) (Some promotionLedgerId))
         else ret (ledgerEntries, idObj)
     | None => ret (ledgerEntries, idObj)
     end) ;;
  let ledgerEntries := fst state in
  let idObj := snd state in
  pursTransactionId <-
    insertTransactionRecord db
      (InsertTransactionRecordParams.mk ledgerEntries sqlTransactionId) ;;
  ret (mkIdObject (primaryPaymentID idObj) (customerLedgerEntryID idObj)
         (str pursTransactionId) (primaryFedNowPaymentID idObj)
         (promotionLedgerEntryID idObj)).

End Orchestrator.

(** The program as it is wired: the orchestrator over the writers, the
    writers over the identifier helper. *)
Definition theDB : DB := createDatabaseOperations genId.

Definition executeBundle : ExecuteStandardPTOperationsParams.t -> M IdObject :=
  executeStandardPTOperations theDB.

(* ================================================================== *)
(** ** The expected behaviour of a run

    The definitions below do not belong to the program: they describe, as
    plain functions of the input and of the world a run starts in, the
    calls the run is expected to issue.  The theorems relate the program
    to them. *)

(** [Math.floor(Math.random() * 16).toString(16)] for the draw [r]. *)
Definition hexDigitOfDraw (r : N) : ascii :=
  digitChar (N.to_nat ((r mod 2 ^ 53) * 16 / 2 ^ 53)).

(** The identifier of [n] characters drawn once [start] draws are consumed. *)
Fixpoint idAt (e : Environment) (start n : nat) : string :=
  match n with
  | O => EmptyString
  | S k => String (hexDigitOfDraw (mathRandom e start)) (idAt e (S start) k)
  end.

Definition envOf (e : Environment) (name : string) : string :=
  match processEnv e name with Some v => v | None => EmptyString end.

Definition envReady (e : Environment) : bool :=
  isSome (processEnv e "DATABASE") && isSome (processEnv e "SECRET_ARN")
  && isSome (processEnv e "CLUSTER_ARN").

(** The first of the three variables that is not set. *)
Definition missingVariable (e : Environment) : string :=
  if negb (isSome (processEnv e "DATABASE")) then "DATABASE"
  else if negb (isSome (processEnv e "SECRET_ARN")) then "SECRET_ARN"
  else "CLUSTER_ARN".

(** The [k]-th reading of the clock, as [formatDate] renders it. *)
Definition timestampAt (e : Environment) (k : nat) : string :=
  replace "T" " " (slice0 19 (toISOString (systemClock e k))).

Definition isPending (paymentMethod amount : number) : bool :=
  num_eqb paymentMethod PaymentMethod.FedNow && num_gtb amount (num 0).

(** The call of each writer in a world whose counters read [draws] and
    [clocks]. *)
Definition paymentCall (e : Environment) (draws clocks : nat)
    (p : InsertPaymentParams.t) : RdsCall :=
  ExecuteStatement
    (insertPayment_statementParams (envOf e "DATABASE") (envOf e "SECRET_ARN")
       (envOf e "CLUSTER_ARN") p (idAt e draws 32)
       (if isPending (InsertPaymentParams.paymentMethod p)
                     (InsertPaymentParams.amount p)
        then None else Some (timestampAt e (S clocks)))).

Definition fedNowCall (e : Environment) (draws : nat)
    (p : InsertFedNowPaymentParams.t) : RdsCall :=
  ExecuteStatement
    (insertFedNowPayment_statementParams (envOf e "DATABASE")
       (envOf e "SECRET_ARN") (envOf e "CLUSTER_ARN") p (idAt e draws 32)).

Definition ledgerCall (e : Environment) (draws : nat)
    (p : InsertLedgerEntryParams.t) : RdsCall :=
  ExecuteStatement
    (insertLedgerEntry_statementParams (envOf e "DATABASE")
       (envOf e "SECRET_ARN") (envOf e "CLUSTER_ARN") p (idAt e draws 32)).

Definition promotionCall (e : Environment) (draws : nat)
    (p : InsertPromotionLedgerEntryParams.t) : RdsCall :=
  ExecuteStatement
    (insertPromotionLedgerEntry_statementParams (envOf e "DATABASE")
       (envOf e "SECRET_ARN") (envOf e "CLUSTER_ARN") p (idAt e draws 32)).

Definition transactionCall (e : Environment) (draws : nat)
    (p : InsertTransactionRecordParams.t) : RdsCall :=
  BatchExecuteStatement
    (insertTransactionRecord_statementParams (envOf e "DATABASE")
       (envOf e "SECRET_ARN") (envOf e "CLUSTER_ARN") p (idAt e draws 32)).

(** A writer that reaches the data service: the call is logged with the way
    it settled, [draws] draws and [clocks] readings are consumed, and the
    identifier is returned unless the call was rejected. *)
Definition settle (op : Operation) (c : RdsCall) (id : string)
    (draws clocks : nat) (w : World) : Completion string * World :=
  let settled := rdsResponse (environment w) (rdsLog w) c in
  (match settled with None => Normal id | Some e => Throw e end,
   mkWorld (environment w) (rdsLog w ++ [mkEntry op c settled])
           (draws + randomDraws w) (clocks + clockReads w)).

(** Issuing a list of calls in order, up to the first one that is rejected. *)
Fixpoint issue (e : Environment) (plan : list (Operation * RdsCall))
    (log : list LogEntry) : list LogEntry * option Exn :=
  match plan with
  | [] => (log, None)
  | (op, c) :: rest =>
      match rdsResponse e log c with
      | None => issue e rest (log ++ [mkEntry op c None])
      | Some x => (log ++ [mkEntry op c (Some x)], Some x)
      end
  end.

(** The arguments the orchestrator passes to the writers. *)
Definition paymentArgs (params : ExecuteStandardPTOperationsParams.t)
  : InsertPaymentParams.t :=
  let u := ExecuteStandardPTOperationsParams.userPurchaseInformation params in
  InsertPaymentParams.mk (UserPurchaseInformation.payerId u)
    (UserPurchaseInformation.payeeId u) (UserPurchaseInformation.developerId u)
    (UserPurchaseInformation.amount u)
    (UserPurchaseInformation.interactionTypeId u)
    (UserPurchaseInformation.paymentMethod u)
    (ExecuteStandardPTOperationsParams.sqlTransactionId params).

Definition fedNowArgs (params : ExecuteStandardPTOperationsParams.t)
    (paymentId : string) : InsertFedNowPaymentParams.t :=
  let u := ExecuteStandardPTOperationsParams.userPurchaseInformation params in
  InsertFedNowPaymentParams.mk paymentId
    (match UserPurchaseInformation.payerAccountId u with
     | Some a => a | None => EmptyString end)
    (match UserPurchaseInformation.payeeAccountId u with
     | Some a => a | None => EmptyString end)
    (ExecuteStandardPTOperationsParams.sqlTransactionId params).

Definition ledgerArgs (params : ExecuteStandardPTOperationsParams.t)
  : InsertLedgerEntryParams.t :=
  let u := ExecuteStandardPTOperationsParams.userPurchaseInformation params in
  InsertLedgerEntryParams.mk (UserPurchaseInformation.payerId u)
    (UserPurchaseInformation.payeeId u) (UserPurchaseInformation.developerId u)
    (UserPurchaseInformation.amount u)
    (UserPurchaseInformation.interactionTypeId u)
    (ExecuteStandardPTOperationsParams.sqlTransactionId params).

Definition promotionArgs (params : ExecuteStandardPTOperationsParams.t)
  : InsertPromotionLedgerEntryParams.t :=
  let u := ExecuteStandardPTOperationsParams.userPurchaseInformation params in
  InsertPromotionLedgerEntryParams.mk (UserPurchaseInformation.developerId u)
    (UserPurchaseInformation.payerId u) (UserPurchaseInformation.payeeId u)
    (match PromotionInformation.promoAmount
             (ExecuteStandardPTOperationsParams.promotionInformation params)
     with Some a => a | None => NaN end)
    (UserPurchaseInformation.interactionTypeId u)
    (ExecuteStandardPTOperationsParams.sqlTransactionId params).

Section Plan.

Variable params : ExecuteStandardPTOperationsParams.t.
Variable w : World.

Let e := environment w.
Let u := ExecuteStandardPTOperationsParams.userPurchaseInformation params.
Let fedNow := fedNowCondition u.
Let promotion :=
  promotionCondition
    (ExecuteStandardPTOperationsParams.promotionInformation params).

(** The counter of draws before each step. *)
Definition drawsAtPayment : nat := randomDraws w.
Definition drawsAtFedNow : nat := (32 + drawsAtPayment)%nat.
Definition drawsAtLedger : nat :=
  if fedNow then (32 + drawsAtFedNow)%nat else drawsAtFedNow.
Definition drawsAtPromotion : nat := (32 + drawsAtLedger)%nat.
Definition drawsAtTransaction : nat :=
  if promotion then (32 + drawsAtPromotion)%nat else drawsAtPromotion.

(** The identifier each step generates. *)
Definition paymentIdOf : string := idAt e drawsAtPayment 32.
Definition fedNowPaymentIdOf : string := idAt e drawsAtFedNow 32.
Definition ledgerIdOf : string := idAt e drawsAtLedger 32.
Definition promotionLedgerIdOf : string := idAt e drawsAtPromotion 32.
Definition pursTransactionIdOf : string := idAt e drawsAtTransaction 32.

Definition ledgerEntriesOf : list string :=
  [ledgerIdOf] ++ (if promotion then [promotionLedgerIdOf] else []).

Definition transactionArgs : InsertTransactionRecordParams.t :=
  InsertTransactionRecordParams.mk ledgerEntriesOf
    (ExecuteStandardPTOperationsParams.sqlTransactionId params).

(** The calls of a run that nothing interrupts, in order. *)
Definition bundlePlan : list (Operation * RdsCall) :=
  [(InsertPayment, paymentCall e drawsAtPayment (clockReads w) (paymentArgs params))]
  ++ (if fedNow
      then [(InsertFedNowPayment,
             fedNowCall e drawsAtFedNow (fedNowArgs params paymentIdOf))]
      else [])
  ++ [(InsertLedgerEntry, ledgerCall e drawsAtLedger (ledgerArgs params))]
  ++ (if promotion
      then [(InsertPromotionLedgerEntry,
             promotionCall e drawsAtPromotion (promotionArgs params))]
      else [])
  ++ [(InsertTransactionRecord,
       transactionCall e drawsAtTransaction transactionArgs)].

(** The result of a run that nothing interrupts. *)
Definition bundleResult : IdObject :=
  mkIdObject (str paymentIdOf) (str ledgerIdOf) (str pursTransactionIdOf)
    (if fedNow then Some fedNowPaymentIdOf else None)
    (if promotion then Some promotionLedgerIdOf else None).

End Plan.

(** The entries a run has added to the log. *)
Definition newEntries (before after : World) : list LogEntry :=
  skipn (List.length (rdsLog before)) (rdsLog after).

Definition entriesOf (op : Operation) (l : list LogEntry) : list LogEntry :=
  filter (fun en => Operation_eqb (issuer en) op) l.

(** What can be observed of a run: its completion, the log of the service
    and the environment. *)
Definition observe {A} (run : Completion A * World)
  : Completion A * list LogEntry * Environment :=
  (fst run, rdsLog (snd run), environment (snd run)).

Definition expected {A} (e : Environment) (plan : list (Operation * RdsCall))
    (log : list LogEntry) (result : A)
  : Completion A * list LogEntry * Environment :=
  (match snd (issue e plan log) with
   | None => Normal result
   | Some x => Throw x
   end, fst (issue e plan log), e).

(** The bundle schema raises no issue exactly when the input has this
    shape. *)
Record BundleValid (params : ExecuteStandardPTOperationsParams.t) : Prop := {
  valid_payeeId :
    String.length (UserPurchaseInformation.payeeId
      (ExecuteStandardPTOperationsParams.userPurchaseInformation params)) = 32%nat;
  valid_payerId :
    String.length (UserPurchaseInformation.payerId
      (ExecuteStandardPTOperationsParams.userPurchaseInformation params)) = 32%nat;
  valid_payerAccountId :
    forall a, UserPurchaseInformation.payerAccountId
      (ExecuteStandardPTOperationsParams.userPurchaseInformation params) = Some a ->
      String.length a = 32%nat;
  valid_payeeAccountId :
    forall a, UserPurchaseInformation.payeeAccountId
      (ExecuteStandardPTOperationsParams.userPurchaseInformation params) = Some a ->
      String.length a = 32%nat;
  valid_developerId :
    String.length (UserPurchaseInformation.developerId
      (ExecuteStandardPTOperationsParams.userPurchaseInformation params)) = 32%nat;
  valid_amount :
    isNaN (UserPurchaseInformation.amount
      (ExecuteStandardPTOperationsParams.userPurchaseInformation params)) = false
    /\ num_ltb (UserPurchaseInformation.amount
      (ExecuteStandardPTOperationsParams.userPurchaseInformation params)) (num 0)
       = false;
  valid_interactionTypeId :
    isNaN (UserPurchaseInformation.interactionTypeId
      (ExecuteStandardPTOperationsParams.userPurchaseInformation params)) = false;
  valid_paymentMethod :
    isNaN (UserPurchaseInformation.paymentMethod
      (ExecuteStandardPTOperationsParams.userPurchaseInformation params)) = false
    /\ existsb (num_eqb (UserPurchaseInformation.paymentMethod
         (ExecuteStandardPTOperationsParams.userPurchaseInformation params)))
         [PaymentMethod.FedNow; PaymentMethod.Card] = true;
  valid_promoAmount :
    forall a, PromotionInformation.promoAmount
      (ExecuteStandardPTOperationsParams.promotionInformation params) = Some a ->
      isNaN a = false /\ num_ltb a (num 0) = false;
  valid_sqlTransactionId :
    String.length (ExecuteStandardPTOperationsParams.sqlTransactionId params)
    = 32%nat
}.

(** The entries [issue] adds to the log. *)
Fixpoint issued (e : Environment) (plan : list (Operation * RdsCall))
    (log : list LogEntry) : list LogEntry :=
  match plan with
  | [] => []
  | (op, c) :: rest =>
      match rdsResponse e log c with
      | None => mkEntry op c None :: issued e rest (log ++ [mkEntry op c None])
      | Some x => [mkEntry op c (Some x)]
      end
  end.

(** Of the five writers only the settlement writer sends the parameters
    [fedNowPaymentId], [payerAccountId] and [payeeAccountId]. *)
Definition settlementFree (c : RdsCall) : Prop :=
  callParam "fedNowPaymentId" c = None
  /\ callParam "payerAccountId" c = None
  /\ callParam "payeeAccountId" c = None.

(** The parameter sets of a batch call. *)
Definition batchSets (c : RdsCall) : list (list SqlParameter) :=
  match c with
  | ExecuteStatement _ => []
  | BatchExecuteStatement r => BatchExecuteStatementRequest.parameterSets r
  end.

(** The fields of a bundle input that break the shape the orchestrator
    requires, by their paths and in the order of the schema: identifiers and
    the scope token of exactly 32 characters, numbers that are numbers,
    amounts that are not negative, a payment method of the enumeration. *)
Definition offending {A} (ok : A -> bool) (path : list string) (v : A)
  : list (list string) :=
  if ok v then [] else [path].

Definition has32 (s : string) : bool := (String.length s =? 32)%nat.
Definition isNumber (x : number) : bool := negb (isNaN x).
Definition isNonNegative (x : number) : bool :=
  negb (isNaN x) && negb (num_ltb x (num 0)).
Definition isPaymentMethod (x : number) : bool :=
  negb (isNaN x) && (num_eqb x PaymentMethod.FedNow || num_eqb x PaymentMethod.Card).
Definition whenPresent {A} (ok : A -> bool) (o : option A) : bool :=
  match o with None => true | Some v => ok v end.

Definition offendingFields (params : ExecuteStandardPTOperationsParams.t)
  : list (list string) :=
  let u := ExecuteStandardPTOperationsParams.userPurchaseInformation params in
  offending has32 ["userPurchaseInformation"; "payeeId"]
    (UserPurchaseInformation.payeeId u)
  ++ offending has32 ["userPurchaseInformation"; "payerId"]
       (UserPurchaseInformation.payerId u)
  ++ offending (whenPresent has32) ["userPurchaseInformation"; "payerAccountId"]
       (UserPurchaseInformation.payerAccountId u)
  ++ offending (whenPresent has32) ["userPurchaseInformation"; "payeeAccountId"]
       (UserPurchaseInformation.payeeAccountId u)
  ++ offending has32 ["userPurchaseInformation"; "developerId"]
       (UserPurchaseInformation.developerId u)
  ++ offending isNonNegative ["userPurchaseInformation"; "amount"]
       (UserPurchaseInformation.amount u)
  ++ offending isNumber ["userPurchaseInformation"; "interactionTypeId"]
       (UserPurchaseInformation.interactionTypeId u)
  ++ offending isPaymentMethod ["userPurchaseInformation"; "paymentMethod"]
       (UserPurchaseInformation.paymentMethod u)
  ++ offending (whenPresent isNonNegative) ["promotionInformation"; "promoAmount"]
       (PromotionInformation.promoAmount
          (ExecuteStandardPTOperationsParams.promotionInformation params))
  ++ offending has32 ["sqlTransactionId"]
       (ExecuteStandardPTOperationsParams.sqlTransactionId params).

(** The clock never leaves the years 0000..9999. *)
Definition fourDigitYears (e : Environment) : Prop :=
  forall k, 0 <= YearFromTime (systemClock e k) <= 9999.

(* ================================================================== *)
(** ** Test data ([src/index.test.ts], [src/db/index.test.ts]) *)

Definition PAYEE_ID : string := repeatChar "a" 32.
Definition PAYER_ID : string := repeatChar "b" 32.
Definition DEVELOPER_ID : string := repeatChar "c" 32.
Definition SQL_TRANSACTION_ID : string := repeatChar "d" 32.
Definition PAYER_ACCOUNT_ID : string := repeatChar "e" 32.
Definition PAYEE_ACCOUNT_ID : string := repeatChar "f" 32.
Definition PAYMENT_ID : string := repeatChar "g" 32.
Definition FED_NOW_PAYMENT_ID : string := repeatChar "h" 32.
Definition LEDGER_ENTRY_ID : string := repeatChar "i" 32.
Definition PROMOTION_LEDGER_ENTRY_ID : string := repeatChar "j" 32.
Definition TRANSACTION_RECORD_ID : string := repeatChar "k" 32.

(** 2023-12-28T20:49:19.559Z *)
Definition mockDate : Date := 1703796559559.

Definition mockEnv (n : string) : option string :=
  if String.eqb n "DATABASE" then Some "mock-database"
  else if String.eqb n "SECRET_ARN" then Some "mock-secret-arn"
  else if String.eqb n "CLUSTER_ARN" then Some "mock-cluster-arn"
  else None.

(** An environment whose service resolves every call. *)
Definition calmEnvironment : Environment :=
  mkEnvironment mockEnv (fun _ _ => None)
    (fun n => (N.of_nat n * 1234567890123457)%N) (fun _ => mockDate).

(** An environment whose service rejects the call it receives once [n]
    calls are in its log. *)
Definition failingEnvironment (n : nat) : Environment :=
  mkEnvironment mockEnv
    (fun log _ => if (List.length log =? n)%nat
                  then Some (Error "Database operation failed") else None)
    (fun n => (N.of_nat n * 1234567890123457)%N) (fun _ => mockDate).

(** An environment whose clock advances by a second at every reading. *)
Definition tickingEnvironment : Environment :=
  mkEnvironment mockEnv (fun _ _ => None)
    (fun n => (N.of_nat n * 1234567890123457)%N)
    (fun k => mockDate + 1000 * Z.of_nat k).

Definition calmWorld : World := mkWorld calmEnvironment [] 0 0.
Definition tickingWorld : World := mkWorld tickingEnvironment [] 0 0.
Definition failingWorld (n : nat) : World := mkWorld (failingEnvironment n) [] 0 0.

Definition userPurchaseInformation : UserPurchaseInformation.t :=
  UserPurchaseInformation.mk PAYER_ID PAYEE_ID DEVELOPER_ID (num 100) (num 1)
    PaymentMethod.Card None None.

Definition fedNowUserPurchaseInformation : UserPurchaseInformation.t :=
  UserPurchaseInformation.mk PAYER_ID PAYEE_ID DEVELOPER_ID (num 100) (num 1)
    PaymentMethod.FedNow (Some PAYER_ACCOUNT_ID) (Some PAYEE_ACCOUNT_ID).

Definition invalidUserPurchaseInformation : UserPurchaseInformation.t :=
  UserPurchaseInformation.mk "invalid" "invalid" "invalid" (num (-1)) (num 1)
    PaymentMethod.Card None None.

Definition promotionInformation : PromotionInformation.t :=
  PromotionInformation.mk (Some (num 10)).

Definition noPromotion : PromotionInformation.t := PromotionInformation.mk None.

Definition cardParams : ExecuteStandardPTOperationsParams.t :=
  ExecuteStandardPTOperationsParams.mk userPurchaseInformation noPromotion
    SQL_TRANSACTION_ID.

Definition cardPromotionParams : ExecuteStandardPTOperationsParams.t :=
  ExecuteStandardPTOperationsParams.mk userPurchaseInformation
    promotionInformation SQL_TRANSACTION_ID.

Definition fedNowParams : ExecuteStandardPTOperationsParams.t :=
  ExecuteStandardPTOperationsParams.mk fedNowUserPurchaseInformation
    noPromotion SQL_TRANSACTION_ID.

Definition fedNowPromotionParams : ExecuteStandardPTOperationsParams.t :=
  ExecuteStandardPTOperationsParams.mk fedNowUserPurchaseInformation
    promotionInformation SQL_TRANSACTION_ID.

Definition invalidParams : ExecuteStandardPTOperationsParams.t :=
  ExecuteStandardPTOperationsParams.mk invalidUserPurchaseInformation
    noPromotion SQL_TRANSACTION_ID.

(** The mocked writers of the orchestrator's tests. *)
Definition mockDB : DB :=
  mkDB (fun _ => ret PAYMENT_ID) (fun _ => ret FED_NOW_PAYMENT_ID)
       (fun _ => ret LEDGER_ENTRY_ID) (fun _ => ret PROMOTION_LEDGER_ENTRY_ID)
       (fun _ => ret TRANSACTION_RECORD_ID).

(** A purchase whose payer identifier has 32 characters, none hexadecimal. *)
Definition nonHexParams : ExecuteStandardPTOperationsParams.t :=
  ExecuteStandardPTOperationsParams.mk
    (UserPurchaseInformation.mk (repeatChar "z" 32) PAYEE_ID DEVELOPER_ID
       (num 100) (num 1) PaymentMethod.Card None None)
    noPromotion SQL_TRANSACTION_ID.

(** A ledger entry with a negative amount, valid otherwise. *)
Definition negativeLedgerEntry : InsertLedgerEntryParams.t :=
  InsertLedgerEntryParams.mk PAYER_ID PAYEE_ID DEVELOPER_ID (num (-1)) (num 1)
    SQL_TRANSACTION_ID.

(** The call the service rejects when it fails on its second call of the
    card purchase. *)
Definition rejectedLedgerEntry : LogEntry :=
  mkEntry InsertLedgerEntry
    (ledgerCall (failingEnvironment 1) 32 (ledgerArgs cardParams))
    (Some (Error "Database operation failed")).

(** The calls of the card purchase with a promotion. *)
Definition promotionRun : list LogEntry :=
  rdsLog (snd (executeBundle cardPromotionParams calmWorld)).

Definition negativePayment : InsertPaymentParams.t :=
  InsertPaymentParams.mk PAYER_ID PAYEE_ID DEVELOPER_ID (num (-1)) (num 1)
    PaymentMethod.Card SQL_TRANSACTION_ID.

Definition cardPayment : InsertPaymentParams.t :=
  InsertPaymentParams.mk PAYER_ID PAYEE_ID DEVELOPER_ID (num 100) (num 1)
    PaymentMethod.Card SQL_TRANSACTION_ID.

Definition fedNowPayment : InsertPaymentParams.t :=
  InsertPaymentParams.mk PAYER_ID PAYEE_ID DEVELOPER_ID (num 100) (num 1)
    PaymentMethod.FedNow SQL_TRANSACTION_ID.

(* ================================================================== *)
(** ** Further observations

    More vocabulary for the properties of the second part; none of it
    belongs to the program. *)

(** A lowercase hexadecimal digit. *)
Definition isLowerHex (c : ascii) : bool :=
  let n := N_of_ascii c in
  ((48 <=? n) && (n <=? 57) || (97 <=? n) && (n <=? 102))%N.

Definition isLowerHexString (s : string) : bool :=
  forallb isLowerHex (list_ascii_of_string s).

(** The two lowercase digits of a byte, and the string of a buffer: the
    inverse of [Buffer_from_hex] the proofs go through. *)
Definition hexOfByte (b : N) : string :=
  String (digitChar (N.to_nat (b / 16)))
    (String (digitChar (N.to_nat (b mod 16))) EmptyString).

Fixpoint hexOfBuffer (b : Buffer) : string :=
  match b with
  | [] => EmptyString
  | x :: rest => (hexOfByte x ++ hexOfBuffer rest)%string
  end.

(** The fields of a request that do not depend on the writer. *)
Definition callTransactionId (c : RdsCall) : string :=
  match c with
  | ExecuteStatement r => ExecuteStatementRequest.transactionId r
  | BatchExecuteStatement r => BatchExecuteStatementRequest.transactionId r
  end.

Definition callSql (c : RdsCall) : string :=
  match c with
  | ExecuteStatement r => ExecuteStatementRequest.sql r
  | BatchExecuteStatement r => BatchExecuteStatementRequest.sql r
  end.

Definition callTarget (c : RdsCall) : string * string * string :=
  match c with
  | ExecuteStatement r =>
      (ExecuteStatementRequest.database r, ExecuteStatementRequest.secretArn r,
       ExecuteStatementRequest.resourceArn r)
  | BatchExecuteStatement r =>
      (BatchExecuteStatementRequest.database r,
       BatchExecuteStatementRequest.secretArn r,
       BatchExecuteStatementRequest.resourceArn r)
  end.

(** The writers a run calls when nothing interrupts it, in order. *)
Definition bundleOperations (params : ExecuteStandardPTOperationsParams.t)
  : list Operation :=
  [InsertPayment]
  ++ (if fedNowCondition
           (ExecuteStandardPTOperationsParams.userPurchaseInformation params)
      then [InsertFedNowPayment] else [])
  ++ [InsertLedgerEntry]
  ++ (if promotionCondition
           (ExecuteStandardPTOperationsParams.promotionInformation params)
      then [InsertPromotionLedgerEntry] else [])
  ++ [InsertTransactionRecord].

(** A data service that resolves every call. *)
Definition accepting (e : Environment) : Prop :=
  forall log c, rdsResponse e log c = None.

Definition resolved (en : LogEntry) : Prop := outcome en = None.

(** A process environment with no variable set. *)
Definition bareEnvironment : Environment :=
  mkEnvironment (fun _ => None) (fun _ _ => None)
    (fun n => (N.of_nat n * 1234567890123457)%N) (fun _ => mockDate).

Definition bareWorld : World := mkWorld bareEnvironment [] 0 0.

(** A FedNow purchase of a positive amount without the payee's account. *)
Definition fedNowWithoutAccount : ExecuteStandardPTOperationsParams.t :=
  ExecuteStandardPTOperationsParams.mk
    (UserPurchaseInformation.mk PAYER_ID PAYEE_ID DEVELOPER_ID (num 100) (num 1)
       PaymentMethod.FedNow (Some PAYER_ACCOUNT_ID) None)
    noPromotion SQL_TRANSACTION_ID.

Definition fedNowSettlement : InsertFedNowPaymentParams.t :=
  InsertFedNowPaymentParams.mk PAYMENT_ID PAYER_ACCOUNT_ID PAYEE_ACCOUNT_ID
    SQL_TRANSACTION_ID.

Definition promotionEntry : InsertPromotionLedgerEntryParams.t :=
  InsertPromotionLedgerEntryParams.mk DEVELOPER_ID PAYER_ID PAYEE_ID (num 10)
    (num 1) SQL_TRANSACTION_ID.

Definition transactionRecord : InsertTransactionRecordParams.t :=
  InsertTransactionRecordParams.mk [LEDGER_ENTRY_ID; PROMOTION_LEDGER_ENTRY_ID]
    SQL_TRANSACTION_ID.

(** The writer [op] threw [x] and left the world [w']: the payment writer
    from the world the run started in, the settlement writer from the world
    the payment writer left. *)
Definition stoppedAt (db : DB) (params : ExecuteStandardPTOperationsParams.t)
    (w w' : World) (x : Exn) (op : Operation) : Prop :=
  match op with
  | InsertPayment => insertPayment db (paymentArgs params) w = (Throw x, w')
  | InsertFedNowPayment =>
      exists paymentId w1,
        insertPayment db (paymentArgs params) w = (Normal paymentId, w1)
        /\ insertFedNowPayment db (fedNowArgs params paymentId) w1 = (Throw x, w')
  | InsertLedgerEntry =>
      exists w2, insertLedgerEntry db (ledgerArgs params) w2 = (Throw x, w')
  | InsertPromotionLedgerEntry =>
      exists w3,
        insertPromotionLedgerEntry db (promotionArgs params) w3 = (Throw x, w')
  | InsertTransactionRecord =>
      exists ledgerEntries w4,
        ledgerEntries <> []
        /\ insertTransactionRecord db
             (InsertTransactionRecordParams.mk ledgerEntries
                (ExecuteStandardPTOperationsParams.sqlTransactionId params)) w4
           = (Throw x, w')
  end.

(** Writers of which the ledger-entry one throws. *)
Definition brokenLedgerDB : DB :=
  mkDB (fun _ => ret PAYMENT_ID) (fun _ => ret FED_NOW_PAYMENT_ID)
       (fun _ => throw (Error "Database operation failed"))
       (fun _ => ret PROMOTION_LEDGER_ENTRY_ID)
       (fun _ => ret TRANSACTION_RECORD_ID).

(** What a writer has done once it has reached the service: one call, the
    identifier [id] of 32 digits written as [key], and [id] returned if the
    call was resolved, the error of the service thrown otherwise. *)
Definition wroteUnder (op : Operation) (key : RdsCall -> option Field)
    (w : World) (run : Completion string * World) : Prop :=
  exists c id,
    newEntries w (snd run)
    = [mkEntry op c (rdsResponse (environment w) (rdsLog w) c)]
    /\ String.length id = 32%nat
    /\ key c = Some (blob (Buffer_from_hex id))
    /\ fst run = match rdsResponse (environment w) (rdsLog w) c with
                 | None => Normal id
                 | Some x => Throw x
                 end.

(* ================================================================== *)
(** * Properties *)

(** ** Numbers and strings *)

Lemma num_eqb_zero_gtb (a : number) :
  isNaN a = false -> num_ltb a (num 0) = false ->
  num_eqb a (num 0) = negb (num_gtb a (num 0)).
Proof.
  destruct a as [| |q|]; simpl; try discriminate; try reflexivity.
  intros _ H. unfold num_gtb; simpl.
  apply negb_false_iff in H.
  rewrite negb_involutive.
  apply Qle_bool_iff in H.
  destruct (Qeq_bool q (inject_Z 0)) eqn:E.
  - apply Qeq_bool_iff in E. symmetry. apply Qle_bool_iff.
    rewrite E. apply Qle_refl.
  - symmetry. apply not_true_is_false. intro L.
    apply Qle_bool_iff in L.
    assert (q == inject_Z 0)%Q as Heq by (apply Qle_antisym; assumption).
    apply Qeq_bool_iff in Heq. congruence.
Qed.

Lemma append_nil_right (s : string) : (s ++ "")%string = s.
Proof. induction s; simpl; congruence. Qed.

Lemma append_assoc_cons (a : string) (c : ascii) (b : string) :
  ((a ++ String c "") ++ b)%string = (a ++ String c b)%string.
Proof. induction a; simpl; congruence. Qed.

Lemma idAt_length (e : Environment) (n : nat) :
  forall start, String.length (idAt e start n) = n.
Proof. induction n; simpl; intros; [reflexivity | now rewrite IHn]. Qed.

Lemma z_string_length_ok (len : nat) (path : list string) (s : string) :
  String.length s = len -> z_string_length len path s = [].
Proof.
  intros <-. unfold z_string_length. now rewrite Nat.ltb_irrefl.
Qed.

Lemma z_string_length_nil (len : nat) (path : list string) (s : string) :
  z_string_length len path s = [] -> String.length s = len.
Proof.
  unfold z_string_length.
  destruct (Nat.ltb_spec len (String.length s)); [discriminate|].
  destruct (Nat.ltb_spec (String.length s) len); [discriminate|].
  intros _. lia.
Qed.

(** ** The monad *)

Lemma bind_normal {A B} (m : M A) (f : A -> M B) (w w' : World) (a : A) :
  m w = (Normal a, w') -> bind m f w = f a w'.
Proof. unfold bind. now intros ->. Qed.

Lemma bind_throw {A B} (m : M A) (f : A -> M B) (w w' : World) (x : Exn) :
  m w = (Throw x, w') -> bind m f w = (Throw x, w').
Proof. unfold bind. now intros ->. Qed.

Lemma parse_ok {A} (schema : Schema A) (data : A) (w : World) :
  schema [] data = [] -> parse schema data w = (Normal data, w).
Proof. unfold parse. now intros ->. Qed.

Lemma parse_fail {A} (schema : Schema A) (data : A) (w : World) :
  schema [] data <> [] ->
  parse schema data w = (Throw (ZodError (schema [] data)), w).
Proof. unfold parse. destruct (schema [] data); [congruence | reflexivity]. Qed.

(** ** Helpers *)

Lemma genId_loop_run (n : nat) :
  forall (acc : string) (w : World),
    genId_loop n acc w =
    (Normal (acc ++ idAt (environment w) (randomDraws w) n)%string,
     mkWorld (environment w) (rdsLog w) (n + randomDraws w) (clockReads w)).
Proof.
  induction n as [|k IH]; intros acc w.
  - destruct w. simpl. now rewrite append_nil_right.
  - change (genId_loop (S k) acc w)
      with (bind Math_random
              (fun r => genId_loop k
                 (acc ++ String (digitChar (N.to_nat (r * 16 / 2 ^ 53))) "")%string)
              w).
    unfold bind, Math_random. rewrite IH. cbn [environment rdsLog randomDraws clockReads].
    rewrite append_assoc_cons, Nat.add_succ_r. reflexivity.
Qed.

Lemma genId_run (n : nat) (w : World) :
  genId n w =
  (Normal (idAt (environment w) (randomDraws w) n),
   mkWorld (environment w) (rdsLog w) (n + randomDraws w) (clockReads w)).
Proof. unfold genId. now rewrite genId_loop_run. Qed.

Lemma getEnvVariable_set (n : string) (w : World) :
  isSome (processEnv (environment w) n) = true ->
  getEnvVariable n w = (Normal (envOf (environment w) n), w).
Proof.
  unfold getEnvVariable, envOf.
  destruct (processEnv (environment w) n); [reflexivity | discriminate].
Qed.

Lemma getEnvVariable_unset (n : string) (w : World) :
  isSome (processEnv (environment w) n) = false ->
  getEnvVariable n w =
  (Throw (Error ("Environment variable " ++ n ++ " not set")%string), w).
Proof.
  unfold getEnvVariable.
  destruct (processEnv (environment w) n); [discriminate | reflexivity].
Qed.

Lemma envReady_inv (e : Environment) :
  envReady e = true ->
  isSome (processEnv e "DATABASE") = true
  /\ isSome (processEnv e "SECRET_ARN") = true
  /\ isSome (processEnv e "CLUSTER_ARN") = true.
Proof.
  unfold envReady. intros H.
  apply andb_true_iff in H as [H H3]. apply andb_true_iff in H as [H1 H2].
  auto.
Qed.

Lemma formatDate_run (date : Date) (w : World) :
  formatDate date w =
  (Normal (timestampAt (environment w) (clockReads w)),
   mkWorld (environment w) (rdsLog w) (randomDraws w) (S (clockReads w))).
Proof. reflexivity. Qed.

Lemma digitChar_hex (k : nat) : isSome (hexVal (digitChar k)) = true.
Proof. do 16 (destruct k as [|k]; [reflexivity|]). reflexivity. Qed.

Lemma idAt_hex (e : Environment) (n : nat) :
  forall start, isHexString (idAt e start n) = true.
Proof.
  unfold isHexString. induction n as [|k IH]; intros start; [reflexivity|].
  cbn [idAt list_ascii_of_string forallb]. rewrite IH.
  unfold hexDigitOfDraw. now rewrite digitChar_hex.
Qed.

(** [genId] always returns, and what it returns is a string of the length
    asked for, made of hexadecimal digits; it leaves the log alone. *)
Lemma genId_hexadecimal (n : nat) (w : World) :
  exists id w',
    genId n w = (Normal id, w')
    /\ String.length id = n /\ isHexString id = true
    /\ rdsLog w' = rdsLog w.
Proof.
  rewrite genId_run. do 2 eexists. split; [reflexivity|].
  split; [apply idAt_length|]. split; [apply idAt_hex | reflexivity].
Qed.

(** The models of the built-ins on the constants of the tests. *)
Example toISOString_mockDate : toISOString mockDate = "2023-12-28T20:49:19.559Z".
Proof. reflexivity. Qed.

Example toISOString_epoch : toISOString 0 = "1970-01-01T00:00:00.000Z".
Proof. reflexivity. Qed.

Example toISOString_leap_day :
  toISOString 951782400000 = "2000-02-29T00:00:00.000Z".
Proof. reflexivity. Qed.

Example toISOString_year_10000 :
  toISOString 253402300800000 = "+010000-01-01T00:00:00.000Z".
Proof. reflexivity. Qed.

Example Buffer_from_hex_PAYEE_ID :
  Buffer_from_hex PAYEE_ID = repeat 170%N 16.
Proof. reflexivity. Qed.

Example Buffer_from_hex_truncates : Buffer_from_hex "abzz12" = [171%N].
Proof. reflexivity. Qed.

(** ** The writers *)

(** After validation, every writer draws its identifier, looks the three
    variables up and calls the service. *)
Ltac step tac := erewrite bind_normal by tac; cbv beta.

Ltac writer_prelude Hvalid Hready :=
  let H1 := fresh "Hdatabase" in
  let H2 := fresh "Hsecret" in
  let H3 := fresh "Hcluster" in
  destruct (envReady_inv _ Hready) as (H1 & H2 & H3);
  repeat step ltac:(apply parse_ok; exact Hvalid);
  step ltac:(apply genId_run);
  step ltac:(apply getEnvVariable_set; exact H1);
  step ltac:(apply getEnvVariable_set; exact H2);
  step ltac:(apply getEnvVariable_set; exact H3);
  cbn [environment].

Ltac writer_call :=
  unfold formatDate, timestampAt;
  unfold bind, new_Date, RDS_executeStatement, RDS_batchExecuteStatement,
    rdsCall, settle, ret;
  cbn [environment rdsLog randomDraws clockReads];
  match goal with
  | |- context [rdsResponse ?e ?l ?c] => destruct (rdsResponse e l c)
  end; reflexivity.

Lemma db_insertFedNowPayment_run (p : InsertFedNowPaymentParams.t) (w : World) :
  InsertFedNowPaymentParamsSchema [] p = [] ->
  envReady (environment w) = true ->
  db_insertFedNowPayment genId p w =
  settle InsertFedNowPayment
    (fedNowCall (environment w) (randomDraws w) p)
    (idAt (environment w) (randomDraws w) 32) 32 0 w.
Proof.
  intros Hvalid Hready. unfold db_insertFedNowPayment.
  writer_prelude Hvalid Hready.
  unfold fedNowCall. writer_call.
Qed.

Lemma db_insertPayment_run (p : InsertPaymentParams.t) (w : World) :
  InsertPaymentParamsSchema [] p = [] ->
  envReady (environment w) = true ->
  db_insertPayment genId p w =
  settle InsertPayment
    (paymentCall (environment w) (randomDraws w) (clockReads w) p)
    (idAt (environment w) (randomDraws w) 32) 32
    (if isPending (InsertPaymentParams.paymentMethod p)
                  (InsertPaymentParams.amount p) then 0 else 2)%nat w.
Proof.
  intros Hvalid Hready. unfold db_insertPayment.
  writer_prelude Hvalid Hready.
  unfold paymentCall, isPending.
  destruct (num_eqb (InsertPaymentParams.paymentMethod p) PaymentMethod.FedNow
            && num_gtb (InsertPaymentParams.amount p) (num 0)).
  - writer_call.
  - writer_call.
Qed.

Lemma db_insertLedgerEntry_run (p : InsertLedgerEntryParams.t) (w : World) :
  InsertLedgerEntryParamsSchema [] p = [] ->
  envReady (environment w) = true ->
  db_insertLedgerEntry genId p w =
  settle InsertLedgerEntry
    (ledgerCall (environment w) (randomDraws w) p)
    (idAt (environment w) (randomDraws w) 32) 32 0 w.
Proof.
  intros Hvalid Hready. unfold db_insertLedgerEntry.
  writer_prelude Hvalid Hready.
  unfold ledgerCall. writer_call.
Qed.

Lemma db_insertPromotionLedgerEntry_run
    (p : InsertPromotionLedgerEntryParams.t) (w : World) :
  InsertPromotionLedgerEntryParamsSchema [] p = [] ->
  envReady (environment w) = true ->
  db_insertPromotionLedgerEntry genId p w =
  settle InsertPromotionLedgerEntry
    (promotionCall (environment w) (randomDraws w) p)
    (idAt (environment w) (randomDraws w) 32) 32 0 w.
Proof.
  intros Hvalid Hready. unfold db_insertPromotionLedgerEntry.
  writer_prelude Hvalid Hready.
  unfold promotionCall. writer_call.
Qed.

Lemma db_insertTransactionRecord_run
    (p : InsertTransactionRecordParams.t) (w : World) :
  InsertTransactionRecordParamsSchema [] p = [] ->
  envReady (environment w) = true ->
  db_insertTransactionRecord genId p w =
  settle InsertTransactionRecord
    (transactionCall (environment w) (randomDraws w) p)
    (idAt (environment w) (randomDraws w) 32) 32 0 w.
Proof.
  intros Hvalid Hready. unfold db_insertTransactionRecord.
  writer_prelude Hvalid Hready.
  unfold transactionCall. writer_call.
Qed.

(** A writer whose parameters are rejected throws the issues and leaves the
    world as it was. *)
Lemma db_insertPayment_invalid (p : InsertPaymentParams.t) (w : World) :
  InsertPaymentParamsSchema [] p <> [] ->
  db_insertPayment genId p w =
  (Throw (ZodError (InsertPaymentParamsSchema [] p)), w).
Proof.
  intros H. unfold db_insertPayment.
  now erewrite bind_throw by (apply parse_fail; exact H).
Qed.

Lemma db_insertLedgerEntry_invalid (p : InsertLedgerEntryParams.t) (w : World) :
  InsertLedgerEntryParamsSchema [] p <> [] ->
  db_insertLedgerEntry genId p w =
  (Throw (ZodError (InsertLedgerEntryParamsSchema [] p)), w).
Proof.
  intros H. unfold db_insertLedgerEntry.
  now erewrite bind_throw by (apply parse_fail; exact H).
Qed.

Lemma db_insertPromotionLedgerEntry_invalid
    (p : InsertPromotionLedgerEntryParams.t) (w : World) :
  InsertPromotionLedgerEntryParamsSchema [] p <> [] ->
  db_insertPromotionLedgerEntry genId p w =
  (Throw (ZodError (InsertPromotionLedgerEntryParamsSchema [] p)), w).
Proof.
  intros H. unfold db_insertPromotionLedgerEntry.
  now erewrite bind_throw by (apply parse_fail; exact H).
Qed.

Lemma db_insertFedNowPayment_invalid
    (p : InsertFedNowPaymentParams.t) (w : World) :
  InsertFedNowPaymentParamsSchema [] p <> [] ->
  db_insertFedNowPayment genId p w =
  (Throw (ZodError (InsertFedNowPaymentParamsSchema [] p)), w).
Proof.
  intros H. unfold db_insertFedNowPayment.
  now erewrite bind_throw by (apply parse_fail; exact H).
Qed.

Lemma db_insertTransactionRecord_invalid
    (p : InsertTransactionRecordParams.t) (w : World) :
  InsertTransactionRecordParamsSchema [] p <> [] ->
  db_insertTransactionRecord genId p w =
  (Throw (ZodError (InsertTransactionRecordParamsSchema [] p)), w).
Proof.
  intros H. unfold db_insertTransactionRecord.
  now erewrite bind_throw by (apply parse_fail; exact H).
Qed.

(** ** Validity of the bundle carries over to the writers *)

(** Whether a combinator raises an issue does not depend on the path. *)
Lemma z_string_length_path (len : nat) (p q : list string) (s : string) :
  z_string_length len p s = [] -> z_string_length len q s = [].
Proof. intros H. apply z_string_length_ok. exact (z_string_length_nil _ _ _ H). Qed.

Lemma z_number_nil (p : list string) (x : number) :
  z_number p x = [] <-> isNaN x = false.
Proof. unfold z_number. destruct (isNaN x); split; congruence. Qed.

Lemma z_number_nonnegative_nil (p : list string) (x : number) :
  z_number_nonnegative p x = [] <->
  isNaN x = false /\ num_ltb x (num 0) = false.
Proof.
  unfold z_number_nonnegative.
  destruct (isNaN x); [split; [discriminate | intros [? _]; discriminate]|].
  destruct (num_ltb x (num 0)); split; try congruence; auto.
  intros [_ ?]; discriminate.
Qed.

Lemma z_nativeEnum_nil (values : list number) (p : list string) (x : number) :
  z_nativeEnum values p x = [] <->
  isNaN x = false /\ existsb (num_eqb x) values = true.
Proof.
  unfold z_nativeEnum.
  destruct (isNaN x); [split; [discriminate | intros [? _]; discriminate]|].
  destruct (existsb (num_eqb x) values); split; try congruence; auto.
  intros [_ ?]; discriminate.
Qed.

Lemma bundle_valid (params : ExecuteStandardPTOperationsParams.t) :
  ExecuteStandardPTOperationsParamsSchema [] params = [] -> BundleValid params.
Proof.
  destruct params as [[payer payee dev amt itype pm pacc eacc] [promo] tx].
  unfold ExecuteStandardPTOperationsParamsSchema, UserPurchaseInformationSchema,
    PromotionInformationSchema.
  cbn [ExecuteStandardPTOperationsParams.userPurchaseInformation
       ExecuteStandardPTOperationsParams.promotionInformation
       ExecuteStandardPTOperationsParams.sqlTransactionId
       UserPurchaseInformation.payerId UserPurchaseInformation.payeeId
       UserPurchaseInformation.developerId UserPurchaseInformation.amount
       UserPurchaseInformation.interactionTypeId
       UserPurchaseInformation.paymentMethod
       UserPurchaseInformation.payerAccountId
       UserPurchaseInformation.payeeAccountId
       PromotionInformation.promoAmount].
  intros H.
  repeat match type of H with
         | _ ++ _ = [] => apply app_eq_nil in H; destruct H as [? H]
         end.
  repeat match goal with
         | H : (_ ++ _)%list = [] |- _ =>
             apply app_eq_nil in H; let H' := fresh in destruct H as [H' H]
         end.
  constructor;
    cbn [ExecuteStandardPTOperationsParams.userPurchaseInformation
       ExecuteStandardPTOperationsParams.promotionInformation
       ExecuteStandardPTOperationsParams.sqlTransactionId
       UserPurchaseInformation.payerId UserPurchaseInformation.payeeId
       UserPurchaseInformation.developerId UserPurchaseInformation.amount
       UserPurchaseInformation.interactionTypeId
       UserPurchaseInformation.paymentMethod
       UserPurchaseInformation.payerAccountId
       UserPurchaseInformation.payeeAccountId
       PromotionInformation.promoAmount];
    try (eapply z_string_length_nil; eassumption);
    try (eapply z_number_nonnegative_nil; eassumption);
    try (eapply z_number_nil; eassumption);
    try (eapply z_nativeEnum_nil; eassumption).
  - intros a ->. eapply z_string_length_nil; eassumption.
  - intros a ->. eapply z_string_length_nil; eassumption.
  - intros a ->. eapply z_number_nonnegative_nil; eassumption.
Qed.

Lemma app_nil_intro {A} (a b : list A) : a = [] -> b = [] -> a ++ b = [].
Proof. now intros -> ->. Qed.

Ltac schema_nil :=
  repeat match goal with
         | |- (_ ++ _)%list = [] => apply app_nil_intro
         | |- z_string_length _ _ _ = [] => apply z_string_length_ok
         | |- z_number_nonnegative _ _ = [] => apply z_number_nonnegative_nil
         | |- z_number _ _ = [] => apply z_number_nil
         | |- z_nativeEnum _ _ _ = [] => apply z_nativeEnum_nil
         | |- z_string _ _ = [] => reflexivity
         end.

Lemma paymentArgs_valid (params : ExecuteStandardPTOperationsParams.t) :
  BundleValid params -> InsertPaymentParamsSchema [] (paymentArgs params) = [].
Proof.
  intros []. unfold InsertPaymentParamsSchema, paymentArgs.
  cbn [InsertPaymentParams.payerId InsertPaymentParams.payeeId
       InsertPaymentParams.developerId InsertPaymentParams.amount
       InsertPaymentParams.interactionTypeId InsertPaymentParams.paymentMethod
       InsertPaymentParams.sqlTransactionId].
  schema_nil; assumption.
Qed.

Lemma ledgerArgs_valid (params : ExecuteStandardPTOperationsParams.t) :
  BundleValid params -> InsertLedgerEntryParamsSchema [] (ledgerArgs params) = [].
Proof.
  intros []. unfold InsertLedgerEntryParamsSchema, ledgerArgs.
  cbn [InsertLedgerEntryParams.payerId InsertLedgerEntryParams.payeeId
       InsertLedgerEntryParams.developerId InsertLedgerEntryParams.amount
       InsertLedgerEntryParams.interactionTypeId
       InsertLedgerEntryParams.sqlTransactionId].
  schema_nil; try assumption. tauto.
Qed.

Lemma fedNowCondition_accounts (u : UserPurchaseInformation.t) :
  fedNowCondition u = true ->
  exists a b,
    UserPurchaseInformation.payerAccountId u = Some a
    /\ UserPurchaseInformation.payeeAccountId u = Some b
    /\ isPending (UserPurchaseInformation.paymentMethod u)
                 (UserPurchaseInformation.amount u) = true.
Proof.
  unfold fedNowCondition, isPending. intros H.
  apply andb_true_iff in H as [H Hb]. apply andb_true_iff in H as [H Ha].
  destruct (UserPurchaseInformation.payerAccountId u) as [a|]; [|discriminate].
  destruct (UserPurchaseInformation.payeeAccountId u) as [b|]; [|discriminate].
  eauto.
Qed.

Lemma fedNowArgs_valid (params : ExecuteStandardPTOperationsParams.t)
    (paymentId : string) :
  BundleValid params ->
  fedNowCondition
    (ExecuteStandardPTOperationsParams.userPurchaseInformation params) = true ->
  String.length paymentId = 32%nat ->
  InsertFedNowPaymentParamsSchema [] (fedNowArgs params paymentId) = [].
Proof.
  intros [] Hc Hid.
  destruct (fedNowCondition_accounts _ Hc) as (a & b & Ha & Hb & _).
  unfold InsertFedNowPaymentParamsSchema, fedNowArgs.
  cbn [InsertFedNowPaymentParams.paymentId
       InsertFedNowPaymentParams.payerAccountId
       InsertFedNowPaymentParams.payeeAccountId
       InsertFedNowPaymentParams.sqlTransactionId].
  rewrite Ha, Hb.
  schema_nil; auto.
Qed.

Lemma promotionArgs_valid (params : ExecuteStandardPTOperationsParams.t) :
  BundleValid params ->
  promotionCondition
    (ExecuteStandardPTOperationsParams.promotionInformation params) = true ->
  InsertPromotionLedgerEntryParamsSchema [] (promotionArgs params) = [].
Proof.
  intros [] Hc.
  unfold InsertPromotionLedgerEntryParamsSchema, promotionArgs.
  cbn [InsertPromotionLedgerEntryParams.developerId
       InsertPromotionLedgerEntryParams.payerId
       InsertPromotionLedgerEntryParams.payeeId
       InsertPromotionLedgerEntryParams.promoAmount
       InsertPromotionLedgerEntryParams.interactionTypeId
       InsertPromotionLedgerEntryParams.sqlTransactionId].
  unfold promotionCondition in Hc.
  destruct (PromotionInformation.promoAmount
              (ExecuteStandardPTOperationsParams.promotionInformation params))
    as [a|]; [|discriminate].
  schema_nil; auto.
Qed.

Lemma transactionArgs_valid (params : ExecuteStandardPTOperationsParams.t)
    (w : World) :
  BundleValid params ->
  InsertTransactionRecordParamsSchema [] (transactionArgs params w) = [].
Proof.
  intros []. unfold InsertTransactionRecordParamsSchema, transactionArgs.
  cbn [InsertTransactionRecordParams.ledgerEntries
       InsertTransactionRecordParams.sqlTransactionId].
  schema_nil; auto.
Qed.

(** ** The orchestrator *)

(** The two conditional steps are taken exactly under [fedNowCondition]
    and [promotionCondition]. *)
Lemma fedNow_branch {T} (u : UserPurchaseInformation.t)
    (taken : string -> string -> T) (skipped : T) :
  match UserPurchaseInformation.payerAccountId u,
        UserPurchaseInformation.payeeAccountId u with
  | Some payerAccount, Some payeeAccount =>
      if num_eqb (UserPurchaseInformation.paymentMethod u) PaymentMethod.FedNow
         && num_gtb (UserPurchaseInformation.amount u) (num 0)
      then taken payerAccount payeeAccount else skipped
  | _, _ => skipped
  end =
  if fedNowCondition u
  then taken
         (match UserPurchaseInformation.payerAccountId u with
          | Some a => a | None => EmptyString end)
         (match UserPurchaseInformation.payeeAccountId u with
          | Some a => a | None => EmptyString end)
  else skipped.
Proof.
  unfold fedNowCondition.
  destruct (UserPurchaseInformation.payerAccountId u),
    (UserPurchaseInformation.payeeAccountId u);
    cbn [isSome]; rewrite ?andb_true_r, ?andb_false_r; reflexivity.
Qed.

Lemma promotion_branch {T} (p : PromotionInformation.t)
    (taken : number -> T) (skipped : T) :
  match PromotionInformation.promoAmount p with
  | Some promo => if num_gtb promo (num 0) then taken promo else skipped
  | None => skipped
  end =
  if promotionCondition p
  then taken (match PromotionInformation.promoAmount p with
              | Some a => a | None => NaN end)
  else skipped.
Proof.
  unfold promotionCondition.
  destruct (PromotionInformation.promoAmount p); reflexivity.
Qed.

Ltac projections :=
  cbn [environment rdsLog randomDraws clockReads fst snd
       primaryPaymentID customerLedgerEntryID pursTransactionID
       primaryFedNowPaymentID promotionLedgerEntryID issue app].

(** One writer of the sequence: replace its argument by the named one,
    run it, and split on the way the service settles the call. *)
Ltac writer_step args lemma Hvalid Hready :=
  unfold bind at 1;
  match goal with
  | |- context [?f genId ?a ?w] =>
      change a with args;
      rewrite (lemma args w Hvalid Hready)
  end;
  unfold settle at 1; projections;
  match goal with
  | |- context [rdsResponse ?e ?l ?c] => destruct (rdsResponse e l c)
  end; projections; [auto | ].

Theorem executeBundle_run (params : ExecuteStandardPTOperationsParams.t) (w : World) :
  ExecuteStandardPTOperationsParamsSchema [] params = [] ->
  envReady (environment w) = true ->
  observe (executeBundle params w) =
  expected (environment w) (bundlePlan params w) (rdsLog w)
    (bundleResult params w).
Proof.
  intros Hvalid Hready. pose proof (bundle_valid _ Hvalid) as V.
  pose proof (paymentArgs_valid V) as Hpay.
  pose proof (ledgerArgs_valid V) as Hled.
  pose proof (transactionArgs_valid w V) as Htx.
  pose proof (fun H => fedNowArgs_valid (paymentIdOf w) V H (idAt_length _ _ _))
    as Hfed.
  pose proof (promotionArgs_valid V) as Hpromo.
  unfold executeBundle, executeStandardPTOperations.
  step ltac:(apply parse_ok; exact Hvalid).
  cbv zeta. unfold theDB, createDatabaseOperations.
  cbn [insertPayment insertFedNowPayment insertLedgerEntry
       insertPromotionLedgerEntry insertTransactionRecord].
  unfold expected, bundlePlan, bundleResult, transactionArgs, ledgerEntriesOf,
    pursTransactionIdOf, promotionLedgerIdOf, ledgerIdOf, fedNowPaymentIdOf,
    paymentIdOf, drawsAtTransaction, drawsAtPromotion, drawsAtLedger,
    drawsAtFedNow, drawsAtPayment in *.
  projections.
  writer_step (paymentArgs params) db_insertPayment_run Hpay Hready.
  unfold bind at 1. rewrite fedNow_branch.
  destruct (fedNowCondition
              (ExecuteStandardPTOperationsParams.userPurchaseInformation params))
    eqn:Cfed;
    [ specialize (Hfed eq_refl);
      writer_step (fedNowArgs params (idAt (environment w) (randomDraws w) 32))
        db_insertFedNowPayment_run Hfed Hready
    | ];
    unfold ret at 1; projections;
    writer_step (ledgerArgs params) db_insertLedgerEntry_run Hled Hready;
    unfold bind at 1; rewrite promotion_branch;
    (destruct (promotionCondition
                 (ExecuteStandardPTOperationsParams.promotionInformation params))
       eqn:Cpromo;
     [ specialize (Hpromo eq_refl);
       writer_step (promotionArgs params) db_insertPromotionLedgerEntry_run
         Hpromo Hready
     | ]);
    unfold ret at 1; projections;
    unfold bind at 1;
    match goal with
    | |- context [db_insertTransactionRecord genId ?a ?w0] =>
        rewrite (db_insertTransactionRecord_run a w0 Htx Hready)
    end;
    unfold settle at 1; projections;
    match goal with
    | |- context [rdsResponse ?e ?l ?c] => destruct (rdsResponse e l c)
    end; reflexivity.
Qed.

(** Validation comes first, whatever the writers are. *)
Lemma executeStandardPTOperations_invalid (db : DB)
    (params : ExecuteStandardPTOperationsParams.t) (w : World) :
  ExecuteStandardPTOperationsParamsSchema [] params <> [] ->
  executeStandardPTOperations db params w =
  (Throw (ZodError (ExecuteStandardPTOperationsParamsSchema [] params)), w).
Proof.
  intros H. unfold executeStandardPTOperations.
  now erewrite bind_throw by (apply parse_fail; exact H).
Qed.

(** Without its three variables the first writer throws before it calls
    the service. *)
Lemma db_insertPayment_unready (p : InsertPaymentParams.t) (w : World) :
  InsertPaymentParamsSchema [] p = [] ->
  envReady (environment w) = false ->
  db_insertPayment genId p w =
  (Throw (Error ("Environment variable " ++ missingVariable (environment w)
                 ++ " not set")%string),
   mkWorld (environment w) (rdsLog w) (32 + randomDraws w) (clockReads w)).
Proof.
  intros Hvalid Hready. unfold db_insertPayment.
  repeat step ltac:(apply parse_ok; exact Hvalid).
  step ltac:(apply genId_run).
  unfold envReady in Hready. unfold missingVariable.
  destruct (isSome (processEnv (environment w) "DATABASE")) eqn:H1.
  - step ltac:(apply getEnvVariable_set; exact H1).
    destruct (isSome (processEnv (environment w) "SECRET_ARN")) eqn:H2.
    + step ltac:(apply getEnvVariable_set; exact H2).
      destruct (isSome (processEnv (environment w) "CLUSTER_ARN")) eqn:H3;
        [discriminate|].
      now erewrite bind_throw by (apply getEnvVariable_unset; exact H3).
    + now erewrite bind_throw by (apply getEnvVariable_unset; exact H2).
  - now erewrite bind_throw by (apply getEnvVariable_unset; exact H1).
Qed.

Lemma executeBundle_unready (params : ExecuteStandardPTOperationsParams.t)
    (w : World) :
  ExecuteStandardPTOperationsParamsSchema [] params = [] ->
  envReady (environment w) = false ->
  observe (executeBundle params w) =
  (Throw (Error ("Environment variable " ++ missingVariable (environment w)
                 ++ " not set")%string),
   rdsLog w, environment w).
Proof.
  intros Hvalid Hready.
  pose proof (paymentArgs_valid (bundle_valid _ Hvalid)) as Hpay.
  unfold executeBundle, executeStandardPTOperations.
  step ltac:(apply parse_ok; exact Hvalid).
  cbv zeta. unfold theDB, createDatabaseOperations. cbn [insertPayment].
  erewrite bind_throw
    by (apply (db_insertPayment_unready (paymentArgs params) w Hpay Hready)).
  reflexivity.
Qed.

(** ** Issuing a plan *)

Lemma observe_inv {A} (run : Completion A * World) (r : Completion A)
    (l : list LogEntry) (e : Environment) :
  observe run = (r, l, e) ->
  fst run = r /\ rdsLog (snd run) = l /\ environment (snd run) = e.
Proof. unfold observe. intros H. inversion H. auto. Qed.

Lemma issue_fst (e : Environment) (plan : list (Operation * RdsCall)) :
  forall log, fst (issue e plan log) = log ++ issued e plan log.
Proof.
  induction plan as [|[op c] rest IH]; intros log; cbn [issue issued].
  - now rewrite app_nil_r.
  - destruct (rdsResponse e log c).
    + reflexivity.
    + rewrite IH, <- app_assoc. reflexivity.
Qed.

Lemma newEntries_app (w w' : World) (l : list LogEntry) :
  rdsLog w' = rdsLog w ++ l -> newEntries w w' = l.
Proof.
  unfold newEntries. intros ->.
  rewrite skipn_app, Nat.sub_diag, skipn_all. reflexivity.
Qed.

(** A rejected call is the last one issued; it is what the service
    answered to it, and what issuing the plan ends with. *)
Lemma issued_rejected (e : Environment) (plan : list (Operation * RdsCall)) :
  forall log en x,
    In en (issued e plan log) -> outcome en = Some x ->
    snd (issue e plan log) = Some x
    /\ exists earlier,
         issued e plan log = earlier ++ [en]
         /\ Forall (fun en' => outcome en' = None) earlier
         /\ rdsResponse e (log ++ earlier) (call en) = Some x.
Proof.
  induction plan as [|[op c] rest IH]; intros log en x Hin Hout;
    cbn [issue issued] in *.
  - contradiction.
  - destruct (rdsResponse e log c) as [y|] eqn:R.
    + destruct Hin as [<-|[]]. cbn in Hout. injection Hout as ->.
      split; [reflexivity|]. exists [].
      split; [reflexivity|]. split; [constructor|].
      rewrite app_nil_r. exact R.
    + destruct Hin as [<-|Hin]; [discriminate|].
      destruct (IH _ _ _ Hin Hout) as (Hs & earlier & Heq & Hall & Hresp).
      split; [exact Hs|].
      exists (mkEntry op c None :: earlier). rewrite Heq.
      split; [reflexivity|]. split; [constructor; [reflexivity | exact Hall]|].
      rewrite <- Hresp, <- app_assoc. reflexivity.
Qed.

Lemma executeBundle_observed (params : ExecuteStandardPTOperationsParams.t)
    (w : World) :
  ExecuteStandardPTOperationsParamsSchema [] params = [] ->
  envReady (environment w) = true ->
  fst (executeBundle params w) =
    match snd (issue (environment w) (bundlePlan params w) (rdsLog w)) with
    | None => Normal (bundleResult params w)
    | Some x => Throw x
    end
  /\ newEntries w (snd (executeBundle params w)) =
     issued (environment w) (bundlePlan params w) (rdsLog w).
Proof.
  intros Hvalid Hready.
  destruct (observe_inv (executeBundle_run params w Hvalid Hready))
    as (Hr & Hl & _).
  split; [exact Hr|]. apply newEntries_app. rewrite Hl. apply issue_fst.
Qed.

(** A run that does not reach the service leaves the log as it was. *)
Lemma executeBundle_silent (params : ExecuteStandardPTOperationsParams.t)
    (w : World) :
  ExecuteStandardPTOperationsParamsSchema [] params <> []
  \/ envReady (environment w) = false ->
  newEntries w (snd (executeBundle params w)) = []
  /\ isNormal (fst (executeBundle params w)) = false.
Proof.
  intros H.
  destruct (ExecuteStandardPTOperationsParamsSchema [] params) eqn:Hs.
  - destruct H as [H|H]; [congruence|].
    destruct (observe_inv (executeBundle_unready params w Hs H))
      as (Hr & Hl & _).
    split; [apply newEntries_app; now rewrite Hl, app_nil_r | now rewrite Hr].
  - unfold executeBundle.
    rewrite executeStandardPTOperations_invalid by (rewrite Hs; discriminate).
    split; [apply newEntries_app; now rewrite app_nil_r | reflexivity].
Qed.

(* ================================================================== *)
(** * The claims *)

(** C6. If the data service rejects a call during a run of the orchestrator,
    whatever the input, the run completes abruptly with the very error the
    service raised; the rejected call is the last one the service receives,
    every call before it was resolved, and no [IdObject] is returned. *)
Theorem C6_store_error_aborts_the_sequence
    (params : ExecuteStandardPTOperationsParams.t) (w : World)
    (en : LogEntry) (x : Exn) :
  In en (newEntries w (snd (executeBundle params w))) ->
  outcome en = Some x ->
  fst (executeBundle params w) = Throw x
  /\ exists earlier,
       newEntries w (snd (executeBundle params w)) = earlier ++ [en]
       /\ Forall (fun en' => outcome en' = None) earlier
       /\ rdsResponse (environment w) (rdsLog w ++ earlier) (call en) = Some x.
Proof.
  intros Hin Hout.
  destruct (ExecuteStandardPTOperationsParamsSchema [] params) eqn:Hvalid.
  - destruct (envReady (environment w)) eqn:Hready.
    + destruct (executeBundle_observed params w Hvalid Hready) as [Hr Hl].
      rewrite Hl in *.
      destruct (issued_rejected _ _ _ _ Hin Hout) as (Hs & earlier & H).
      rewrite Hr, Hs. split; [reflexivity | eauto].
    + destruct (executeBundle_silent params w (or_intror Hready)) as [Hl _].
      rewrite Hl in Hin. contradiction.
  - assert (ExecuteStandardPTOperationsParamsSchema [] params <> []) as Hne
        by (rewrite Hvalid; discriminate).
    destruct (executeBundle_silent params w (or_introl Hne)) as [Hl _].
    rewrite Hl in Hin. contradiction.
Qed.

Lemma C6_witness :
  fst (executeBundle cardParams (failingWorld 1))
  = Throw (Error "Database operation failed")
  /\ exists earlier,
       newEntries (failingWorld 1) (snd (executeBundle cardParams (failingWorld 1)))
       = earlier ++ [rejectedLedgerEntry]
       /\ Forall (fun en' => outcome en' = None) earlier
       /\ rdsResponse (environment (failingWorld 1))
            (rdsLog (failingWorld 1) ++ earlier) (call rejectedLedgerEntry)
          = Some (Error "Database operation failed").
Proof.
  apply (@C6_store_error_aborts_the_sequence cardParams (failingWorld 1)
           rejectedLedgerEntry (Error "Database operation failed")).
  - vm_compute. right. left. reflexivity.
  - reflexivity.
Defined.

(** ** What the bundle schema reports *)

Lemma path_z_string_length (p : list string) (s : string) :
  map path (z_string_length 32 p s) = offending has32 p s.
Proof.
  unfold z_string_length, offending, has32.
  destruct (Nat.ltb_spec 32 (String.length s));
    [|destruct (Nat.ltb_spec (String.length s) 32)];
    destruct (Nat.eqb_spec (String.length s) 32); try lia; reflexivity.
Qed.

Lemma path_z_number (p : list string) (x : number) :
  map path (z_number p x) = offending isNumber p x.
Proof. unfold z_number, offending, isNumber. now destruct (isNaN x). Qed.

Lemma path_z_number_nonnegative (p : list string) (x : number) :
  map path (z_number_nonnegative p x) = offending isNonNegative p x.
Proof.
  unfold z_number_nonnegative, offending, isNonNegative.
  destruct (isNaN x); [reflexivity|]. now destruct (num_ltb x (num 0)).
Qed.

Lemma path_z_nativeEnum (p : list string) (x : number) :
  map path (z_nativeEnum [PaymentMethod.FedNow; PaymentMethod.Card] p x)
  = offending isPaymentMethod p x.
Proof.
  unfold z_nativeEnum, offending, isPaymentMethod. cbn [existsb].
  rewrite orb_false_r.
  destruct (isNaN x); [reflexivity|].
  now destruct (num_eqb x PaymentMethod.FedNow || num_eqb x PaymentMethod.Card).
Qed.

Lemma path_z_optional {A} (inner : Schema A) (ok : A -> bool)
    (p : list string) (o : option A) :
  (forall v, map path (inner p v) = offending ok p v) ->
  map path (z_optional inner p o) = offending (whenPresent ok) p o.
Proof. intros H. destruct o; [apply H | reflexivity]. Qed.

(** The issues of the bundle schema name exactly the offending fields, one
    issue a field, in the order of the schema. *)
Lemma bundle_issue_paths (params : ExecuteStandardPTOperationsParams.t) :
  map path (ExecuteStandardPTOperationsParamsSchema [] params)
  = offendingFields params.
Proof.
  unfold ExecuteStandardPTOperationsParamsSchema, UserPurchaseInformationSchema,
    PromotionInformationSchema, offendingFields.
  cbn [app]. rewrite !map_app.
  rewrite !path_z_string_length, path_z_number, path_z_number_nonnegative,
    path_z_nativeEnum.
  rewrite !(path_z_optional _ has32) by (intros; apply path_z_string_length).
  rewrite (path_z_optional _ isNonNegative)
    by (intros; apply path_z_number_nonnegative).
  rewrite <- !app_assoc. reflexivity.
Qed.

Lemma in_offending {A} (ok : A -> bool) (p q : list string) (v : A) :
  In q (offending ok p v) <-> p = q /\ ok v = false.
Proof.
  unfold offending. destruct (ok v); cbn; [|tauto].
  split; [contradiction | intros [_ ?]; discriminate].
Qed.

Lemma has32_false (s : string) : has32 s = false <-> String.length s <> 32%nat.
Proof. unfold has32. now rewrite Nat.eqb_neq. Qed.

(** C5. An input the bundle schema rejects makes the orchestrator, whatever
    its writers are, throw a [ZodError] that carries every issue of the
    schema, one for each offending field and in the order of the schema, and
    leave the world untouched: no call reaches the data service, no writer
    is entered. *)
Theorem C5_invalid_bundle_is_rejected_before_any_write
    (db : DB) (params : ExecuteStandardPTOperationsParams.t) (w : World) :
  ExecuteStandardPTOperationsParamsSchema [] params <> [] ->
  exists issues,
    executeStandardPTOperations db params w = (Throw (ZodError issues), w)
    /\ issues = ExecuteStandardPTOperationsParamsSchema [] params
    /\ map path issues = offendingFields params
    /\ offendingFields params <> []
    /\ newEntries w (snd (executeStandardPTOperations db params w)) = [].
Proof.
  intros H. exists (ExecuteStandardPTOperationsParamsSchema [] params).
  rewrite executeStandardPTOperations_invalid by exact H.
  split; [reflexivity|]. split; [reflexivity|].
  split; [apply bundle_issue_paths|].
  split.
  - rewrite <- bundle_issue_paths.
    destruct (ExecuteStandardPTOperationsParamsSchema [] params);
      [congruence | discriminate].
  - apply newEntries_app. now rewrite app_nil_r.
Qed.

Lemma C5_witness :
  exists issues,
    executeStandardPTOperations theDB invalidParams calmWorld
    = (Throw (ZodError issues), calmWorld)
    /\ issues = ExecuteStandardPTOperationsParamsSchema [] invalidParams
    /\ map path issues = offendingFields invalidParams
    /\ offendingFields invalidParams <> []
    /\ newEntries calmWorld
         (snd (executeStandardPTOperations theDB invalidParams calmWorld)) = [].
Proof.
  apply (C5_invalid_bundle_is_rejected_before_any_write theDB invalidParams
           calmWorld).
  vm_compute. discriminate.
Defined.

(** The rejected input of the orchestrator's tests: four issues, in the
    order the test expects them. *)
Example invalidParams_issues :
  ExecuteStandardPTOperationsParamsSchema [] invalidParams =
  [ mkIssue too_small ["userPurchaseInformation"; "payeeId"];
    mkIssue too_small ["userPurchaseInformation"; "payerId"];
    mkIssue too_small ["userPurchaseInformation"; "developerId"];
    mkIssue too_small ["userPurchaseInformation"; "amount"] ].
Proof. reflexivity. Qed.

(** C8 as stated fails: a payer identifier of 32 characters none of which is
    hexadecimal passes the bundle schema, and the run goes on to completion. *)
Lemma C8_counterexample :
  let payerId :=
    UserPurchaseInformation.payerId
      (ExecuteStandardPTOperationsParams.userPurchaseInformation nonHexParams) in
  String.length payerId = 32%nat
  /\ isHexString payerId = false
  /\ ExecuteStandardPTOperationsParamsSchema [] nonHexParams = []
  /\ isNormal (fst (executeBundle nonHexParams calmWorld)) = true.
Proof. vm_compute. repeat split; reflexivity. Qed.

(** C8, amended. The bundle schema examines the length of the identifiers
    and of the scope token and nothing else of them: it raises an issue at
    [payerId], [payeeId], [developerId] or [sqlTransactionId] exactly when
    that string does not have 32 characters, and any such issue makes the
    orchestrator throw the [ZodError] before anything else happens. *)
Theorem C8_identifiers_are_checked_by_length
    (params : ExecuteStandardPTOperationsParams.t) :
  let u := ExecuteStandardPTOperationsParams.userPurchaseInformation params in
  let issues := ExecuteStandardPTOperationsParamsSchema [] params in
  (In ["userPurchaseInformation"; "payerId"] (map path issues)
   <-> String.length (UserPurchaseInformation.payerId u) <> 32%nat)
  /\ (In ["userPurchaseInformation"; "payeeId"] (map path issues)
      <-> String.length (UserPurchaseInformation.payeeId u) <> 32%nat)
  /\ (In ["userPurchaseInformation"; "developerId"] (map path issues)
      <-> String.length (UserPurchaseInformation.developerId u) <> 32%nat)
  /\ (In ["sqlTransactionId"] (map path issues)
      <-> String.length (ExecuteStandardPTOperationsParams.sqlTransactionId params)
          <> 32%nat)
  /\ forall db w,
       issues <> [] ->
       executeStandardPTOperations db params w = (Throw (ZodError issues), w).
Proof.
  cbv zeta. rewrite bundle_issue_paths. unfold offendingFields.
  repeat match goal with |- _ /\ _ => split end;
    try (intros; now apply executeStandardPTOperations_invalid);
    rewrite <- has32_false, !in_app_iff, !in_offending;
    (split;
     [ intros H;
       repeat (destruct H as [H|H]);
       destruct H as [E F]; first [discriminate E | exact F]
     | intros H; tauto ]).
Qed.

Lemma C8_witness :
  In ["userPurchaseInformation"; "payerId"]
     (map path (ExecuteStandardPTOperationsParamsSchema [] invalidParams))
  /\ executeStandardPTOperations theDB invalidParams calmWorld
     = (Throw (ZodError (ExecuteStandardPTOperationsParamsSchema [] invalidParams)),
        calmWorld).
Proof.
  destruct (C8_identifiers_are_checked_by_length invalidParams)
    as (Hpayer & _ & _ & _ & Hthrow).
  split.
  - apply Hpayer. vm_compute. discriminate.
  - apply Hthrow. vm_compute. discriminate.
Defined.

(** C9 as stated fails: the ledger-entry writer, called with an amount of
    -1 and an input valid otherwise, completes normally after writing the
    negative amount. *)
Lemma C9_counterexample :
  num_ltb (InsertLedgerEntryParams.amount negativeLedgerEntry) (num 0) = true
  /\ fst (insertLedgerEntry theDB negativeLedgerEntry calmWorld)
     = Normal (idAt calmEnvironment 0 32)
  /\ map (fun en => (issuer en, callParam "amount" (call en), outcome en))
         (rdsLog (snd (insertLedgerEntry theDB negativeLedgerEntry calmWorld)))
     = [(InsertLedgerEntry, Some (double (num (-1))), None)].
Proof. vm_compute. repeat split; reflexivity. Qed.

Ltac negative_amount_rejected E :=
  repeat (apply app_eq_nil in E; let H := fresh in destruct E as [H E]);
  match goal with
  | Hn : z_number_nonnegative _ _ = [] |- _ =>
      apply z_number_nonnegative_nil in Hn; destruct Hn; congruence
  end.

(** C9, amended. Each of the five writers validates its parameters first:
    parameters its schema rejects make it throw the issues and leave the
    world as it was.  The schemas of the payment writer and of the promotion
    writer reject a negative amount.  The schema of the ledger-entry writer
    asks of the amount only that it be a number: with identifiers of 32
    characters and the three variables set, the writer issues its call,
    carrying the amount as it is, whatever its sign. *)
Theorem C9_writers_validate_before_writing :
  (forall p w, InsertPaymentParamsSchema [] p <> [] ->
     insertPayment theDB p w
     = (Throw (ZodError (InsertPaymentParamsSchema [] p)), w))
  /\ (forall p w, InsertFedNowPaymentParamsSchema [] p <> [] ->
        insertFedNowPayment theDB p w
        = (Throw (ZodError (InsertFedNowPaymentParamsSchema [] p)), w))
  /\ (forall p w, InsertLedgerEntryParamsSchema [] p <> [] ->
        insertLedgerEntry theDB p w
        = (Throw (ZodError (InsertLedgerEntryParamsSchema [] p)), w))
  /\ (forall p w, InsertPromotionLedgerEntryParamsSchema [] p <> [] ->
        insertPromotionLedgerEntry theDB p w
        = (Throw (ZodError (InsertPromotionLedgerEntryParamsSchema [] p)), w))
  /\ (forall p w, InsertTransactionRecordParamsSchema [] p <> [] ->
        insertTransactionRecord theDB p w
        = (Throw (ZodError (InsertTransactionRecordParamsSchema [] p)), w))
  /\ (forall p, num_ltb (InsertPaymentParams.amount p) (num 0) = true ->
        InsertPaymentParamsSchema [] p <> [])
  /\ (forall p,
        num_ltb (InsertPromotionLedgerEntryParams.promoAmount p) (num 0) = true ->
        InsertPromotionLedgerEntryParamsSchema [] p <> [])
  /\ (forall p w,
        String.length (InsertLedgerEntryParams.payerId p) = 32%nat ->
        String.length (InsertLedgerEntryParams.payeeId p) = 32%nat ->
        String.length (InsertLedgerEntryParams.developerId p) = 32%nat ->
        isNaN (InsertLedgerEntryParams.amount p) = false ->
        isNaN (InsertLedgerEntryParams.interactionTypeId p) = false ->
        envReady (environment w) = true ->
        let c := ledgerCall (environment w) (randomDraws w) p in
        let settled := rdsResponse (environment w) (rdsLog w) c in
        newEntries w (snd (insertLedgerEntry theDB p w))
        = [mkEntry InsertLedgerEntry c settled]
        /\ callParam "amount" c = Some (double (InsertLedgerEntryParams.amount p))
        /\ fst (insertLedgerEntry theDB p w)
           = match settled with
             | None => Normal (idAt (environment w) (randomDraws w) 32)
             | Some x => Throw x
             end).
Proof.
  repeat match goal with |- _ /\ _ => split end.
  - exact db_insertPayment_invalid.
  - exact db_insertFedNowPayment_invalid.
  - exact db_insertLedgerEntry_invalid.
  - exact db_insertPromotionLedgerEntry_invalid.
  - exact db_insertTransactionRecord_invalid.
  - intros p H E. unfold InsertPaymentParamsSchema in E.
    negative_amount_rejected E.
  - intros p H E. unfold InsertPromotionLedgerEntryParamsSchema in E.
    negative_amount_rejected E.
  - intros p w H1 H2 H3 H4 H5 Hready.
    assert (InsertLedgerEntryParamsSchema [] p = []) as Hvalid
        by (unfold InsertLedgerEntryParamsSchema; schema_nil; assumption).
    cbv zeta. change (insertLedgerEntry theDB) with (db_insertLedgerEntry genId).
    rewrite (db_insertLedgerEntry_run p w Hvalid Hready). unfold settle.
    cbn [fst snd]. split; [|split; reflexivity].
    apply newEntries_app. reflexivity.
Qed.

Lemma C9_witness :
  insertPayment theDB negativePayment calmWorld
  = (Throw (ZodError (InsertPaymentParamsSchema [] negativePayment)), calmWorld)
  /\ callParam "amount"
       (ledgerCall (environment calmWorld) (randomDraws calmWorld)
          negativeLedgerEntry)
     = Some (double (num (-1))).
Proof.
  destruct C9_writers_validate_before_writing
    as (Hpay & _ & _ & _ & _ & Hneg & _ & Hledger).
  split.
  - apply Hpay. apply Hneg. reflexivity.
  - apply (Hledger negativeLedgerEntry calmWorld); reflexivity.
Defined.

(** ** Timestamps *)

Lemma dec_isDigit (z : Z) : isDigit (dec z) = true.
Proof.
  unfold dec.
  pose proof (Z.mod_pos_bound z 10 ltac:(lia)) as H.
  assert (z mod 10 = 0 \/ z mod 10 = 1 \/ z mod 10 = 2 \/ z mod 10 = 3
          \/ z mod 10 = 4 \/ z mod 10 = 5 \/ z mod 10 = 6 \/ z mod 10 = 7
          \/ z mod 10 = 8 \/ z mod 10 = 9) as C by lia.
  repeat (destruct C as [C|C]; [rewrite C; reflexivity|]).
  rewrite C. reflexivity.
Qed.

Lemma dec_not_T (z : Z) : Ascii.eqb (dec z) "T" = false.
Proof.
  unfold dec.
  pose proof (Z.mod_pos_bound z 10 ltac:(lia)) as H.
  assert (z mod 10 = 0 \/ z mod 10 = 1 \/ z mod 10 = 2 \/ z mod 10 = 3
          \/ z mod 10 = 4 \/ z mod 10 = 5 \/ z mod 10 = 6 \/ z mod 10 = 7
          \/ z mod 10 = 8 \/ z mod 10 = 9) as C by lia.
  repeat (destruct C as [C|C]; [rewrite C; reflexivity|]).
  rewrite C. reflexivity.
Qed.

(** While the year has four digits, [formatDate] renders a reading of the
    clock as [YYYY-MM-DD HH:MM:SS]. *)
Lemma timestampAt_format (e : Environment) (k : nat) :
  0 <= YearFromTime (systemClock e k) <= 9999 ->
  isTimestampFormat (timestampAt e k) = true.
Proof.
  intros [H0 H1]. unfold timestampAt, toISOString.
  apply Z.leb_le in H0, H1. rewrite H0, H1. cbn [andb].
  unfold pad4, pad3, pad2. cbn [append slice0 substring].
  cbn [replace]. rewrite !dec_not_T.
  change (Ascii.eqb "-" "T") with false. change (Ascii.eqb "T" "T") with true.
  cbv iota. unfold isTimestampFormat. cbn [list_ascii_of_string forallb].
  rewrite !dec_isDigit. reflexivity.
Qed.

(** ** The calls of the writers, parameter by parameter *)

Lemma paymentCall_paymentStatus (e : Environment) (d c : nat)
    (p : InsertPaymentParams.t) :
  callParam "paymentStatus" (paymentCall e d c p)
  = Some (double
            (if negb (num_eqb (InsertPaymentParams.paymentMethod p)
                              PaymentMethod.FedNow)
                || num_eqb (InsertPaymentParams.amount p) (num 0)
             then PaymentStatus.COMPLETE else PaymentStatus.PENDING)).
Proof. reflexivity. Qed.

Lemma paymentCall_datePaid (e : Environment) (d c : nat)
    (p : InsertPaymentParams.t) :
  callParam "datePaid" (paymentCall e d c p)
  = Some (mkField None None
            (if isPending (InsertPaymentParams.paymentMethod p)
                          (InsertPaymentParams.amount p)
             then None else Some (timestampAt e (S c)))
            (Some (isPending (InsertPaymentParams.paymentMethod p)
                             (InsertPaymentParams.amount p)))).
Proof. reflexivity. Qed.

Lemma paymentCall_paymentId (e : Environment) (d c : nat)
    (p : InsertPaymentParams.t) :
  callParam "paymentId" (paymentCall e d c p)
  = Some (blob (Buffer_from_hex (idAt e d 32))).
Proof. reflexivity. Qed.

(** For a valid payment, [COMPLETE] and [PENDING] are each other's
    complement, as are the two tests the writer makes. *)
Lemma pending_iff_not_complete (p : InsertPaymentParams.t) :
  InsertPaymentParamsSchema [] p = [] ->
  isPending (InsertPaymentParams.paymentMethod p) (InsertPaymentParams.amount p)
  = negb (negb (num_eqb (InsertPaymentParams.paymentMethod p)
                        PaymentMethod.FedNow)
          || num_eqb (InsertPaymentParams.amount p) (num 0)).
Proof.
  intros E. unfold InsertPaymentParamsSchema in E.
  repeat (apply app_eq_nil in E; let H := fresh in destruct E as [H E]).
  match goal with
  | Hn : z_number_nonnegative _ _ = [] |- _ =>
      apply z_number_nonnegative_nil in Hn; destruct Hn as [Hnan Hneg]
  end.
  unfold isPending. rewrite (num_eqb_zero_gtb _ Hnan Hneg).
  destruct (num_eqb (InsertPaymentParams.paymentMethod p) PaymentMethod.FedNow),
    (num_gtb (InsertPaymentParams.amount p) (num 0)); reflexivity.
Qed.

(** C2. For every input its schema accepts, the payment writer - with the
    three variables set and a clock within the four-digit years - issues one
    statement in which [paymentStatus] is COMPLETE when the method is not
    FedNow or the amount is 0 and PENDING otherwise; when COMPLETE,
    [datePaid] carries the reading of the clock taken during the call,
    rendered as [YYYY-MM-DD HH:MM:SS], and is not null; when PENDING it
    carries no string and is flagged null. *)
Theorem C2_payment_status_and_date_paid (p : InsertPaymentParams.t) (w : World) :
  InsertPaymentParamsSchema [] p = [] ->
  envReady (environment w) = true ->
  fourDigitYears (environment w) ->
  exists pay,
    newEntries w (snd (insertPayment theDB p w)) = [pay]
    /\ issuer pay = InsertPayment
    /\ (if negb (num_eqb (InsertPaymentParams.paymentMethod p) PaymentMethod.FedNow)
           || num_eqb (InsertPaymentParams.amount p) (num 0)
        then
          callParam "paymentStatus" (call pay)
          = Some (double PaymentStatus.COMPLETE)
          /\ exists timestamp,
               callParam "datePaid" (call pay)
               = Some (mkField None None (Some timestamp) (Some false))
               /\ timestamp = timestampAt (environment w) (S (clockReads w))
               /\ isTimestampFormat timestamp = true
        else
          callParam "paymentStatus" (call pay)
          = Some (double PaymentStatus.PENDING)
          /\ callParam "datePaid" (call pay)
             = Some (mkField None None None (Some true))).
Proof.
  intros Hvalid Hready Hclock.
  change (insertPayment theDB) with (db_insertPayment genId).
  rewrite (db_insertPayment_run p w Hvalid Hready). unfold settle. cbn [snd].
  eexists. split; [apply newEntries_app; reflexivity|].
  cbn [issuer call]. split; [reflexivity|].
  rewrite paymentCall_paymentStatus, paymentCall_datePaid.
  rewrite (pending_iff_not_complete p Hvalid).
  destruct (negb (num_eqb (InsertPaymentParams.paymentMethod p) PaymentMethod.FedNow)
            || num_eqb (InsertPaymentParams.amount p) (num 0)); cbn [negb].
  - split; [reflexivity|]. eexists. split; [reflexivity|].
    split; [reflexivity|]. apply timestampAt_format, Hclock.
  - split; reflexivity.
Qed.

Lemma calm_fourDigitYears : fourDigitYears calmEnvironment.
Proof. intros k. vm_compute. split; discriminate. Defined.

Lemma C2_witness :
  exists pay,
    newEntries calmWorld (snd (insertPayment theDB fedNowPayment calmWorld)) = [pay]
    /\ issuer pay = InsertPayment
    /\ callParam "paymentStatus" (call pay) = Some (double PaymentStatus.PENDING)
    /\ callParam "datePaid" (call pay) = Some (mkField None None None (Some true)).
Proof.
  destruct (@C2_payment_status_and_date_paid fedNowPayment calmWorld
              eq_refl eq_refl calm_fourDigitYears) as (pay & H1 & H2 & H3).
  exists pay. split; [exact H1|]. split; [exact H2|]. exact H3.
Defined.

(** The two payments of the writer's tests. *)
Example cardPayment_written :
  map (fun en => (callParam "paymentStatus" (call en),
                  callParam "datePaid" (call en)))
      (rdsLog (snd (insertPayment theDB cardPayment calmWorld)))
  = [(Some (double PaymentStatus.COMPLETE),
      Some (mkField None None (Some "2023-12-28 20:49:19") (Some false)))].
Proof. vm_compute. reflexivity. Qed.

Example fedNowPayment_written :
  map (fun en => (callParam "paymentStatus" (call en),
                  callParam "datePaid" (call en)))
      (rdsLog (snd (insertPayment theDB fedNowPayment calmWorld)))
  = [(Some (double PaymentStatus.PENDING),
      Some (mkField None None None (Some true)))].
Proof. vm_compute. reflexivity. Qed.

(** C10. [formatDate] does not look at its argument: whatever the date it
    is given, it reads the clock anew and renders that reading from its ISO
    string in UTC.  Hence the [datePaid] the payment writer writes for a
    payment that is not pending renders the reading taken inside
    [formatDate], the one after the reading the writer passes to it. *)
Theorem C10_formatDate_ignores_its_argument (date : Date) (w : World) :
  formatDate date w
  = (Normal (replace "T" " "
               (slice0 19
                  (toISOString (systemClock (environment w) (clockReads w))))),
     mkWorld (environment w) (rdsLog w) (randomDraws w) (S (clockReads w)))
  /\ (forall other : Date, formatDate other w = formatDate date w)
  /\ (forall p : InsertPaymentParams.t,
        InsertPaymentParamsSchema [] p = [] ->
        envReady (environment w) = true ->
        isPending (InsertPaymentParams.paymentMethod p)
                  (InsertPaymentParams.amount p) = false ->
        exists pay,
          newEntries w (snd (insertPayment theDB p w)) = [pay]
          /\ callParam "datePaid" (call pay)
             = Some (mkField None None
                       (Some (replace "T" " "
                                (slice0 19
                                   (toISOString
                                      (systemClock (environment w)
                                         (S (clockReads w)))))))
                       (Some false))).
Proof.
  split; [reflexivity|]. split; [reflexivity|].
  intros p Hvalid Hready Hpending.
  change (insertPayment theDB) with (db_insertPayment genId).
  rewrite (db_insertPayment_run p w Hvalid Hready). unfold settle. cbn [snd].
  eexists. split; [apply newEntries_app; reflexivity|].
  cbn [call]. rewrite paymentCall_datePaid, Hpending. reflexivity.
Qed.

Lemma C10_witness :
  formatDate 0 tickingWorld = formatDate mockDate tickingWorld
  /\ fst (formatDate 0 tickingWorld) = Normal "2023-12-28 20:49:19"
  /\ exists pay,
       newEntries tickingWorld
         (snd (insertPayment theDB cardPayment tickingWorld)) = [pay]
       /\ callParam "datePaid" (call pay)
          = Some (mkField None None (Some "2023-12-28 20:49:20") (Some false)).
Proof.
  destruct (C10_formatDate_ignores_its_argument mockDate tickingWorld)
    as (Hrun & Hsame & Hpaid).
  split; [apply Hsame|].
  split; [rewrite (Hsame 0), Hrun; reflexivity|].
  exact (Hpaid cardPayment eq_refl eq_refl eq_refl).
Defined.

(** The next writer of the sequence returned, or the run did not complete
    normally. *)
Ltac returned H f id w' E :=
  unfold bind at 1 in H;
  match type of H with
  | context [f ?a ?w] =>
      destruct (f a w) as [[id|?] w'] eqn:E; [|discriminate H]
  end.

(** C7. Whatever the writers are, when the orchestrator completes normally
    the [IdObject] it returns holds, not null, the identifiers the payment,
    ledger-entry and transaction-record writers returned; it has a
    [primaryFedNowPaymentID], the identifier the settlement writer returned,
    exactly when that writer was called, which is when [fedNowCondition]
    holds, and a [promotionLedgerEntryID] likewise under
    [promotionCondition]; otherwise the member is absent. *)
Theorem C7_result_holds_the_returned_identifiers
    (db : DB) (params : ExecuteStandardPTOperationsParams.t)
    (w w' : World) (idObj : IdObject) :
  executeStandardPTOperations db params w = (Normal idObj, w') ->
  exists paymentId ledgerId pursTransactionId w1 w2 w3 w4,
    insertPayment db (paymentArgs params) w = (Normal paymentId, w1)
    /\ (if fedNowCondition
             (ExecuteStandardPTOperationsParams.userPurchaseInformation params)
        then exists fedNowPaymentId,
               insertFedNowPayment db (fedNowArgs params paymentId) w1
               = (Normal fedNowPaymentId, w2)
               /\ primaryFedNowPaymentID idObj = Some fedNowPaymentId
        else w2 = w1 /\ primaryFedNowPaymentID idObj = None)
    /\ insertLedgerEntry db (ledgerArgs params) w2 = (Normal ledgerId, w3)
    /\ (if promotionCondition
             (ExecuteStandardPTOperationsParams.promotionInformation params)
        then exists promotionLedgerId,
               insertPromotionLedgerEntry db (promotionArgs params) w3
               = (Normal promotionLedgerId, w4)
               /\ promotionLedgerEntryID idObj = Some promotionLedgerId
               /\ insertTransactionRecord db
                    (InsertTransactionRecordParams.mk
                       [ledgerId; promotionLedgerId]
                       (ExecuteStandardPTOperationsParams.sqlTransactionId params))
                    w4
                  = (Normal pursTransactionId, w')
        else w4 = w3 /\ promotionLedgerEntryID idObj = None
             /\ insertTransactionRecord db
                  (InsertTransactionRecordParams.mk [ledgerId]
                     (ExecuteStandardPTOperationsParams.sqlTransactionId params))
                  w4
                = (Normal pursTransactionId, w'))
    /\ primaryPaymentID idObj = str paymentId
    /\ customerLedgerEntryID idObj = str ledgerId
    /\ pursTransactionID idObj = str pursTransactionId.
Proof.
  intros H. unfold executeStandardPTOperations in H.
  unfold bind at 1, parse in H.
  destruct (ExecuteStandardPTOperationsParamsSchema [] params);
    [|discriminate H].
  unfold ret at 1 in H. cbv zeta in H.
  returned H (insertPayment db) paymentId w1 E1.
  unfold bind at 1 in H. rewrite fedNow_branch in H.
  destruct (fedNowCondition
              (ExecuteStandardPTOperationsParams.userPurchaseInformation params));
    [ returned H (insertFedNowPayment db) fedNowPaymentId w2 E2
    | pose (w2 := w1) ];
    unfold ret at 1 in H;
    returned H (insertLedgerEntry db) ledgerId w3 E3;
    unfold bind at 1 in H; rewrite promotion_branch in H;
    (destruct (promotionCondition
                 (ExecuteStandardPTOperationsParams.promotionInformation params));
     [ returned H (insertPromotionLedgerEntry db) promotionLedgerId w4 E4
     | pose (w4 := w3) ]);
    unfold ret at 1 in H; cbn [fst snd app] in H;
    returned H (insertTransactionRecord db) pursTransactionId w5 E5;
    unfold ret in H; injection H as <- <-;
    exists paymentId, ledgerId, pursTransactionId, w1, w2, w3, w4;
    cbn [primaryPaymentID customerLedgerEntryID pursTransactionID
         primaryFedNowPaymentID promotionLedgerEntryID];
    repeat split; eauto.
Qed.

Lemma C7_witness :
  exists paymentId ledgerId pursTransactionId w1 w2 w3 w4,
    insertPayment mockDB (paymentArgs fedNowParams) calmWorld
    = (Normal paymentId, w1)
    /\ (exists fedNowPaymentId,
          insertFedNowPayment mockDB (fedNowArgs fedNowParams paymentId) w1
          = (Normal fedNowPaymentId, w2)
          /\ Some FED_NOW_PAYMENT_ID = Some fedNowPaymentId)
    /\ insertLedgerEntry mockDB (ledgerArgs fedNowParams) w2
       = (Normal ledgerId, w3)
    /\ (w4 = w3 /\ @None string = None
        /\ insertTransactionRecord mockDB
             (InsertTransactionRecordParams.mk [ledgerId] SQL_TRANSACTION_ID) w4
           = (Normal pursTransactionId, calmWorld))
    /\ str PAYMENT_ID = str paymentId
    /\ str LEDGER_ENTRY_ID = str ledgerId
    /\ str TRANSACTION_RECORD_ID = str pursTransactionId.
Proof.
  exact (@C7_result_holds_the_returned_identifiers mockDB fedNowParams
           calmWorld calmWorld
           (mkIdObject (str PAYMENT_ID) (str LEDGER_ENTRY_ID)
              (str TRANSACTION_RECORD_ID) (Some FED_NOW_PAYMENT_ID) None)
           eq_refl).
Defined.

(** The four runs of the orchestrator's tests, over the mocked writers. *)
Example standard_payment_without_promotion :
  fst (executeStandardPTOperations mockDB cardParams calmWorld)
  = Normal (mkIdObject (str PAYMENT_ID) (str LEDGER_ENTRY_ID)
              (str TRANSACTION_RECORD_ID) None None).
Proof. reflexivity. Qed.

Example standard_payment_with_promotion :
  fst (executeStandardPTOperations mockDB cardPromotionParams calmWorld)
  = Normal (mkIdObject (str PAYMENT_ID) (str LEDGER_ENTRY_ID)
              (str TRANSACTION_RECORD_ID) None (Some PROMOTION_LEDGER_ENTRY_ID)).
Proof. reflexivity. Qed.

Example fedNow_payment_without_promotion :
  fst (executeStandardPTOperations mockDB fedNowParams calmWorld)
  = Normal (mkIdObject (str PAYMENT_ID) (str LEDGER_ENTRY_ID)
              (str TRANSACTION_RECORD_ID) (Some FED_NOW_PAYMENT_ID) None).
Proof. reflexivity. Qed.

Example fedNow_payment_with_promotion :
  fst (executeStandardPTOperations mockDB fedNowPromotionParams calmWorld)
  = Normal (mkIdObject (str PAYMENT_ID) (str LEDGER_ENTRY_ID)
              (str TRANSACTION_RECORD_ID) (Some FED_NOW_PAYMENT_ID)
              (Some PROMOTION_LEDGER_ENTRY_ID)).
Proof. reflexivity. Qed.

(** ** Runs over the real writers, case by case *)

(** Entries that were issued by a given writer, in a list that is known. *)
Ltac entries :=
  cbn [entriesOf filter issuer call outcome Operation_eqb In app].

(** All the ways a run on a valid input can go: the three variables set or
    not, each condition true or false, each call resolved or rejected. *)
Ltac run_cases params w Hvalid :=
  let Hready := fresh "Hready" in
  let Hr := fresh "Hresult" in
  let Hl := fresh "Hwritten" in
  destruct (envReady (environment w)) eqn:Hready;
  [ destruct (executeBundle_observed params w Hvalid Hready) as [Hr Hl];
    rewrite ?Hl, ?Hr;
    unfold bundlePlan, bundleResult, transactionArgs, ledgerEntriesOf,
      pursTransactionIdOf, promotionLedgerIdOf, ledgerIdOf, fedNowPaymentIdOf,
      paymentIdOf, drawsAtTransaction, drawsAtPromotion, drawsAtLedger,
      drawsAtFedNow, drawsAtPayment;
    destruct (fedNowCondition
                (ExecuteStandardPTOperationsParams.userPurchaseInformation params))
      eqn:?;
    destruct (promotionCondition
                (ExecuteStandardPTOperationsParams.promotionInformation params))
      eqn:?;
    cbn [app issued issue fst snd];
    repeat match goal with
           | |- context [match rdsResponse ?e ?l ?c with _ => _ end] =>
               destruct (rdsResponse e l c) eqn:?; cbn [issued issue fst snd]
           end
  | destruct (executeBundle_silent params w (or_intror Hready)) as [Hl Hr];
    rewrite ?Hl ].

(** What the payment writer returned, when it is run first. *)
Lemma insertPayment_returned (p : InsertPaymentParams.t) (w w1 : World)
    (paymentId : string) :
  insertPayment theDB p w = (Normal paymentId, w1) ->
  InsertPaymentParamsSchema [] p = [] ->
  envReady (environment w) = true
  /\ rdsResponse (environment w) (rdsLog w)
       (paymentCall (environment w) (randomDraws w) (clockReads w) p) = None
  /\ paymentId = idAt (environment w) (randomDraws w) 32.
Proof.
  intros H Hvalid. change (insertPayment theDB) with (db_insertPayment genId) in H.
  destruct (envReady (environment w)) eqn:Hready.
  - rewrite (db_insertPayment_run p w Hvalid Hready) in H. unfold settle in H.
    destruct (rdsResponse (environment w) (rdsLog w)
                (paymentCall (environment w) (randomDraws w) (clockReads w) p));
      [discriminate H|].
    injection H as <- _. auto.
  - rewrite (db_insertPayment_unready p w Hvalid Hready) in H. discriminate H.
Qed.

Lemma fedNowCall_parameters (e : Environment) (d : nat)
    (p : InsertFedNowPaymentParams.t) :
  callParam "paymentId" (fedNowCall e d p)
  = Some (blob (Buffer_from_hex (InsertFedNowPaymentParams.paymentId p)))
  /\ callParam "fedNowPaymentId" (fedNowCall e d p)
     = Some (blob (Buffer_from_hex (idAt e d 32)))
  /\ callParam "payerAccountId" (fedNowCall e d p)
     = Some (text (InsertFedNowPaymentParams.payerAccountId p))
  /\ callParam "payeeAccountId" (fedNowCall e d p)
     = Some (text (InsertFedNowPaymentParams.payeeAccountId p)).
Proof. repeat split; reflexivity. Qed.


(** C1. On a valid input, the data service receives a call of the settlement
    writer only if [fedNowCondition] holds - the method is FedNow, the
    amount is positive and both account identifiers are present; when the
    condition fails, no call comes from that writer and no call carries a
    parameter of a settlement record.  When the condition holds and the
    payment writer has returned an identifier, the service receives exactly
    one call of the settlement writer, made with that identifier as
    [paymentId] and carrying it, decoded, as the parameter [paymentId]. *)
Theorem C1_settlement_written_iff_condition
    (params : ExecuteStandardPTOperationsParams.t) (w : World) :
  ExecuteStandardPTOperationsParamsSchema [] params = [] ->
  let u := ExecuteStandardPTOperationsParams.userPurchaseInformation params in
  let written := newEntries w (snd (executeBundle params w)) in
  (fedNowCondition u = false ->
   forall en, In en written ->
     issuer en <> InsertFedNowPayment /\ settlementFree (call en))
  /\ (forall en, In en written -> issuer en = InsertFedNowPayment ->
        fedNowCondition u = true)
  /\ (fedNowCondition u = true ->
      forall paymentId w1,
        insertPayment theDB (paymentArgs params) w = (Normal paymentId, w1) ->
        exists fed,
          entriesOf InsertFedNowPayment written = [fed]
          /\ call fed
             = fedNowCall (environment w) (32 + randomDraws w)
                 (fedNowArgs params paymentId)
          /\ callParam "paymentId" (call fed)
             = Some (blob (Buffer_from_hex paymentId))).
Proof.
  intros Hvalid. cbv zeta.
  pose proof (paymentArgs_valid (bundle_valid _ Hvalid)) as Hpay.
  split; [|split].
  - intros Hc. run_cases params w Hvalid; try discriminate Hc;
      intros en Hin; cbn [In] in Hin;
      repeat (destruct Hin as [<-|Hin]); try contradiction;
      (split; [discriminate | repeat split; reflexivity]).
  - run_cases params w Hvalid; try reflexivity;
      intros en Hin; cbn [In] in Hin;
      repeat (destruct Hin as [<-|Hin]); try contradiction;
      intros Hi; discriminate Hi.
  - intros Hc. run_cases params w Hvalid; try discriminate Hc;
      intros paymentId w1 E;
      destruct (insertPayment_returned _ _ E Hpay) as (Hrd & R & ->);
      try congruence;
      eexists; entries; (split; [reflexivity|]); split; reflexivity.
Qed.

Lemma C1_witness :
  exists fed,
    entriesOf InsertFedNowPayment
      (newEntries calmWorld (snd (executeBundle fedNowParams calmWorld))) = [fed]
    /\ call fed
       = fedNowCall calmEnvironment 32
           (fedNowArgs fedNowParams (idAt calmEnvironment 0 32))
    /\ callParam "paymentId" (call fed)
       = Some (blob (Buffer_from_hex (idAt calmEnvironment 0 32))).
Proof.
  destruct (@C1_settlement_written_iff_condition fedNowParams calmWorld eq_refl)
    as (_ & _ & H).
  eapply (H eq_refl). vm_compute. reflexivity.
Defined.

(** C3. On a valid input, the data service receives a call of the promotion
    writer only if [promotionCondition] holds - [promoAmount] is present and
    positive - and, when it holds and the call of the ledger-entry writer was
    resolved, exactly one.  The batch of the transaction-record writer has
    one parameter set for every ledger entry written, in the order they
    were written - the primary one, then the promotion one if there is one
    - and every set carries the identifier drawn for the transaction
    record, the one the run returns as [pursTransactionID]. *)
Theorem C3_promotion_entry_and_transaction_batch
    (params : ExecuteStandardPTOperationsParams.t) (w : World) :
  ExecuteStandardPTOperationsParamsSchema [] params = [] ->
  let promotion :=
    promotionCondition
      (ExecuteStandardPTOperationsParams.promotionInformation params) in
  let written := newEntries w (snd (executeBundle params w)) in
  (promotion = false -> entriesOf InsertPromotionLedgerEntry written = [])
  /\ (promotion = true ->
      forall led, In led written -> issuer led = InsertLedgerEntry ->
        outcome led = None ->
        exists pr, entriesOf InsertPromotionLedgerEntry written = [pr])
  /\ (forall tx, In tx written -> issuer tx = InsertTransactionRecord ->
        exists led primary tid,
          entriesOf InsertLedgerEntry written = [led]
          /\ callParam "ledgerId" (call led)
             = Some (blob (Buffer_from_hex primary))
          /\ tid = pursTransactionIdOf params w
          /\ (forall idObj, fst (executeBundle params w) = Normal idObj ->
                pursTransactionID idObj = str tid)
          /\ if promotion
             then exists pr promo,
                    entriesOf InsertPromotionLedgerEntry written = [pr]
                    /\ callParam "ledgerId" (call pr)
                       = Some (blob (Buffer_from_hex promo))
                    /\ batchSets (call tx)
                       = [ [ mkParam "transactionId" (blob (Buffer_from_hex tid));
                             mkParam "ledgerId" (blob (Buffer_from_hex primary)) ];
                           [ mkParam "transactionId" (blob (Buffer_from_hex tid));
                             mkParam "ledgerId" (blob (Buffer_from_hex promo)) ] ]
             else batchSets (call tx)
                  = [ [ mkParam "transactionId" (blob (Buffer_from_hex tid));
                        mkParam "ledgerId" (blob (Buffer_from_hex primary)) ] ]).
Proof.
  intros Hvalid. cbv zeta. split; [|split].
  - intros Hc. run_cases params w Hvalid; try discriminate Hc; reflexivity.
  - intros Hc. run_cases params w Hvalid; try discriminate Hc;
      intros led Hin; cbn [In] in Hin;
      repeat (destruct Hin as [<-|Hin]); try contradiction;
      intros Hi Ho; try discriminate Hi; try discriminate Ho;
      eexists; entries; reflexivity.
  - unfold pursTransactionIdOf, drawsAtTransaction, drawsAtPromotion,
      drawsAtLedger, drawsAtFedNow, drawsAtPayment.
    run_cases params w Hvalid;
      intros tx Hin; cbn [In] in Hin;
      repeat (destruct Hin as [<-|Hin]); try contradiction;
      intros Hi; try discriminate Hi;
      do 3 eexists; entries;
      (split; [reflexivity|]); (split; [reflexivity|]);
      (split; [reflexivity|]);
      (split; [intros idObj Hn; first [discriminate Hn
                                      | injection Hn as <-; reflexivity]|]);
      first [ reflexivity
            | do 2 eexists; entries;
              (split; [reflexivity|]); split; reflexivity ].
Qed.

Lemma C3_witness :
  (exists pr,
     entriesOf InsertPromotionLedgerEntry
       (newEntries calmWorld (snd (executeBundle cardPromotionParams calmWorld)))
     = [pr])
  /\ List.length (batchSets (call (nth 3 promotionRun rejectedLedgerEntry)))
     = 2%nat.
Proof.
  destruct (@C3_promotion_entry_and_transaction_batch cardPromotionParams
              calmWorld eq_refl) as (_ & H2 & H3).
  split.
  - apply (H2 eq_refl (nth 1 promotionRun rejectedLedgerEntry)).
    + vm_compute. right. left. reflexivity.
    + reflexivity.
    + reflexivity.
  - destruct (H3 (nth 3 promotionRun rejectedLedgerEntry))
      as (led & primary & tid & _ & _ & _ & _ & Hb).
    + vm_compute. do 3 right. left. reflexivity.
    + reflexivity.
    + hnf in Hb. destruct Hb as (pr & promo & _ & _ & Hb).
      rewrite Hb. reflexivity.
Defined.

(** The batch of the card purchase with a promotion: two sets, the primary
    ledger entry first, both under the identifier of the transaction
    record. *)
Example promotionRun_batch :
  map (map (fun p => (name p, blobValue (value p))))
      (batchSets (call (nth 3 promotionRun rejectedLedgerEntry)))
  = [ [ ("transactionId", Some (Buffer_from_hex (idAt calmEnvironment 96 32)));
        ("ledgerId", Some (Buffer_from_hex (idAt calmEnvironment 32 32))) ];
      [ ("transactionId", Some (Buffer_from_hex (idAt calmEnvironment 96 32)));
        ("ledgerId", Some (Buffer_from_hex (idAt calmEnvironment 64 32))) ] ].
Proof. vm_compute. reflexivity. Qed.

(** ** The promotion ledger entry *)

(** Whatever the valid input, a call of the promotion writer carries the
    payer, the payee and the developer of the purchase under their own
    names, and the promotion amount as [amount]. *)
Lemma promotion_entry_parameters
    (params : ExecuteStandardPTOperationsParams.t) (w : World) :
  ExecuteStandardPTOperationsParamsSchema [] params = [] ->
  let u := ExecuteStandardPTOperationsParams.userPurchaseInformation params in
  forall pr,
    In pr (newEntries w (snd (executeBundle params w))) ->
    issuer pr = InsertPromotionLedgerEntry ->
    callParam "payerId" (call pr)
    = Some (blob (Buffer_from_hex (UserPurchaseInformation.payerId u)))
    /\ callParam "payeeId" (call pr)
       = Some (blob (Buffer_from_hex (UserPurchaseInformation.payeeId u)))
    /\ callParam "developerId" (call pr)
       = Some (blob (Buffer_from_hex (UserPurchaseInformation.developerId u)))
    /\ option_map (fun a => Some (double a))
         (PromotionInformation.promoAmount
            (ExecuteStandardPTOperationsParams.promotionInformation params))
       = Some (callParam "amount" (call pr)).
Proof.
  intros Hvalid. cbv zeta.
  run_cases params w Hvalid;
    intros pr Hin; cbn [In] in Hin;
    repeat (destruct Hin as [<-|Hin]); try contradiction;
    intros Hi; try discriminate Hi;
    match goal with
    | H : promotionCondition _ = true |- _ =>
        unfold promotionCondition in H;
        destruct (PromotionInformation.promoAmount
                    (ExecuteStandardPTOperationsParams.promotionInformation
                       params)) eqn:Hp; [|discriminate H]
    end;
    (repeat split; try reflexivity);
    unfold promotionCall, promotionArgs; rewrite Hp; reflexivity.
Qed.

(** C4. The code at the input of the orchestrator's test with a promotion:
    the promotion ledger entry is written with the payer of the purchase
    ([b]...) as [payerId], not with its developer ([c]...), which it carries
    as [developerId]; its [amount] is the promotion amount. *)
Theorem C4_promotion_entry_is_paid_by_the_payer :
  map (fun en => (callParam "payerId" (call en),
                  callParam "developerId" (call en),
                  callParam "amount" (call en)))
      (entriesOf InsertPromotionLedgerEntry
         (newEntries calmWorld (snd (executeBundle cardPromotionParams calmWorld))))
  = [ (Some (blob (Buffer_from_hex PAYER_ID)),
       Some (blob (Buffer_from_hex DEVELOPER_ID)),
       Some (double (num 10))) ]
  /\ Buffer_from_hex PAYER_ID <> Buffer_from_hex DEVELOPER_ID
  /\ UserPurchaseInformation.developerId
       (ExecuteStandardPTOperationsParams.userPurchaseInformation
          cardPromotionParams) = DEVELOPER_ID.
Proof.
  split; [vm_compute; reflexivity|]. split; [|reflexivity].
  vm_compute. discriminate.
Qed.

(* ================================================================== *)
(** * Further properties *)

(** ** Identifiers *)

Lemma digitChar_lowerHex (k : nat) : isLowerHex (digitChar k) = true.
Proof. do 16 (destruct k as [|k]; [reflexivity|]). reflexivity. Qed.

Lemma idAt_lowerHex (e : Environment) (n : nat) :
  forall start, isLowerHexString (idAt e start n) = true.
Proof.
  unfold isLowerHexString. induction n as [|k IH]; intros start; [reflexivity|].
  cbn [idAt list_ascii_of_string forallb]. rewrite IH.
  unfold hexDigitOfDraw. now rewrite digitChar_lowerHex.
Qed.


(** Every lowercase digit is the digit of its value. *)
Lemma lowerHex_value (c : ascii) :
  isLowerHex c = true ->
  exists k, (k < 16)%N /\ hexVal c = Some k /\ digitChar (N.to_nat k) = c.
Proof.
  destruct c as [[] [] [] [] [] [] [] []]; intros H;
    try discriminate H;
    (eexists; split; [|split; reflexivity]); reflexivity.
Qed.

Lemma hexOfByte_digits (h l : N) :
  (h < 16)%N -> (l < 16)%N ->
  hexOfByte (16 * h + l)
  = String (digitChar (N.to_nat h)) (String (digitChar (N.to_nat l)) "").
Proof.
  intros Hh Hl. unfold hexOfByte.
  replace ((16 * h + l) / 16)%N with h
    by (apply (N.div_unique _ 16 h l); lia).
  replace ((16 * h + l) mod 16)%N with l
    by (apply (N.mod_unique _ 16 h l); lia).
  reflexivity.
Qed.

(** Decoding a string of lowercase digits of even length loses nothing. *)
Lemma hexOfBuffer_from_hex (n : nat) :
  forall s, String.length s = (2 * n)%nat -> isLowerHexString s = true ->
    hexOfBuffer (Buffer_from_hex s) = s
    /\ List.length (Buffer_from_hex s) = n.
Proof.
  induction n as [|k IH]; intros s Hlen Hhex.
  - destruct s; [split; reflexivity | discriminate Hlen].
  - destruct s as [|a [|b rest]]; try (cbn [String.length] in Hlen; lia).
    unfold isLowerHexString in Hhex.
    cbn [list_ascii_of_string forallb] in Hhex.
    apply andb_true_iff in Hhex as [Ha Hhex].
    apply andb_true_iff in Hhex as [Hb Hhex].
    destruct (lowerHex_value _ Ha) as (h & Hh & Eh & Dh).
    destruct (lowerHex_value _ Hb) as (l & Hl & El & Dl).
    cbn [Buffer_from_hex]. rewrite Eh, El. cbn [hexOfBuffer List.length].
    destruct (IH rest) as [IH1 IH2]; [cbn in Hlen; lia | exact Hhex |].
    rewrite IH1, IH2, (hexOfByte_digits Hh Hl), Dh, Dl. split; reflexivity.
Qed.

(** X2. What [genId 32] returns is written as a blob of exactly 16 bytes,
    and the blob determines the identifier: two generated identifiers that
    are decoded to the same bytes are the same string. *)
Theorem generated_identifiers_decode_faithfully
    (w1 w2 w1' w2' : World) (id1 id2 : string) :
  genId 32 w1 = (Normal id1, w1') ->
  genId 32 w2 = (Normal id2, w2') ->
  List.length (Buffer_from_hex id1) = 16%nat
  /\ (Buffer_from_hex id1 = Buffer_from_hex id2 -> id1 = id2).
Proof.
  rewrite !genId_run. intros H1 H2.
  assert (id1 = idAt (environment w1) (randomDraws w1) 32) as -> by congruence.
  assert (id2 = idAt (environment w2) (randomDraws w2) 32) as -> by congruence.
  destruct (@hexOfBuffer_from_hex 16 (idAt (environment w1) (randomDraws w1) 32))
    as [R1 L1]; [apply idAt_length | apply idAt_lowerHex |].
  destruct (@hexOfBuffer_from_hex 16 (idAt (environment w2) (randomDraws w2) 32))
    as [R2 _]; [apply idAt_length | apply idAt_lowerHex |].
  split; [exact L1|]. intros E. rewrite <- R1, <- R2, E. reflexivity.
Qed.

Lemma generated_identifiers_witness :
  List.length (Buffer_from_hex (idAt calmEnvironment 0 32)) = 16%nat
  /\ (Buffer_from_hex (idAt calmEnvironment 0 32)
      = Buffer_from_hex (idAt calmEnvironment 32 32) ->
      idAt calmEnvironment 0 32 = idAt calmEnvironment 32 32).
Proof.
  exact (@generated_identifiers_decode_faithfully calmWorld
           (mkWorld calmEnvironment [] 32 0) _ _ _ _
           (genId_run 32 calmWorld)
           (genId_run 32 (mkWorld calmEnvironment [] 32 0))).
Defined.

(** ** Identifiers that are not hexadecimal *)




(** ** Writers without their configuration *)

(** After validation and the draw of the identifier, the first variable
    that is not set stops the writer. *)
Ltac unready Hvalid Hready :=
  repeat step ltac:(apply parse_ok; exact Hvalid);
  step ltac:(apply genId_run);
  unfold envReady in Hready; unfold missingVariable;
  match goal with
  | |- context [environment ?w] =>
      destruct (isSome (processEnv (environment w) "DATABASE")) eqn:H1;
      [ step ltac:(apply getEnvVariable_set; exact H1);
        destruct (isSome (processEnv (environment w) "SECRET_ARN")) eqn:H2;
        [ step ltac:(apply getEnvVariable_set; exact H2);
          destruct (isSome (processEnv (environment w) "CLUSTER_ARN")) eqn:H3;
          [ discriminate Hready
          | now erewrite bind_throw by (apply getEnvVariable_unset; exact H3) ]
        | now erewrite bind_throw by (apply getEnvVariable_unset; exact H2) ]
      | now erewrite bind_throw by (apply getEnvVariable_unset; exact H1) ]
  end.

(** X4. A writer called with parameters its schema accepts while
    [DATABASE], [SECRET_ARN] or [CLUSTER_ARN] is not set throws the [Error]
    of [getEnvVariable] that names the first of them that is missing; it
    has drawn its identifier by then, and has not called the service. *)
Theorem writers_stop_at_a_missing_variable (w : World) :
  envReady (environment w) = false ->
  let stopped : Completion string * World :=
    (Throw (Error ("Environment variable " ++ missingVariable (environment w)
                   ++ " not set")%string),
     mkWorld (environment w) (rdsLog w) (32 + randomDraws w) (clockReads w)) in
  (forall p, InsertPaymentParamsSchema [] p = [] ->
     insertPayment theDB p w = stopped)
  /\ (forall p, InsertFedNowPaymentParamsSchema [] p = [] ->
        insertFedNowPayment theDB p w = stopped)
  /\ (forall p, InsertLedgerEntryParamsSchema [] p = [] ->
        insertLedgerEntry theDB p w = stopped)
  /\ (forall p, InsertPromotionLedgerEntryParamsSchema [] p = [] ->
        insertPromotionLedgerEntry theDB p w = stopped)
  /\ (forall p, InsertTransactionRecordParamsSchema [] p = [] ->
        insertTransactionRecord theDB p w = stopped).
Proof.
  intros Hready. cbv zeta.
  repeat match goal with |- _ /\ _ => split end; intros p Hvalid.
  - now apply db_insertPayment_unready.
  - change (insertFedNowPayment theDB) with (db_insertFedNowPayment genId).
    unfold db_insertFedNowPayment. unready Hvalid Hready.
  - change (insertLedgerEntry theDB) with (db_insertLedgerEntry genId).
    unfold db_insertLedgerEntry. unready Hvalid Hready.
  - change (insertPromotionLedgerEntry theDB)
      with (db_insertPromotionLedgerEntry genId).
    unfold db_insertPromotionLedgerEntry. unready Hvalid Hready.
  - change (insertTransactionRecord theDB)
      with (db_insertTransactionRecord genId).
    unfold db_insertTransactionRecord. unready Hvalid Hready.
Qed.

Lemma writers_stop_witness :
  insertPayment theDB cardPayment bareWorld
  = (Throw (Error "Environment variable DATABASE not set"),
     mkWorld bareEnvironment [] 32 0)
  /\ insertTransactionRecord theDB transactionRecord bareWorld
     = (Throw (Error "Environment variable DATABASE not set"),
        mkWorld bareEnvironment [] 32 0).
Proof.
  destruct (@writers_stop_at_a_missing_variable bareWorld eq_refl)
    as (H1 & _ & _ & _ & H5).
  split; [exact (H1 cardPayment eq_refl) | exact (H5 transactionRecord eq_refl)].
Defined.

(** ** The transaction-record writer on any list *)

(** X5. The transaction-record writer rejects an empty list of ledger
    entries with an issue at [ledgerEntries] and calls nothing.  For any
    other list - of any length, its strings of any content - and a scope
    token of 32 characters it issues one batch with one parameter set for
    each entry, in the order of the list, each set made of the identifier
    drawn for the record and that entry, both decoded; it returns the
    identifier if the service resolves the batch and throws what the
    service raised otherwise. *)
Theorem transaction_record_batch_follows_the_list
    (p : InsertTransactionRecordParams.t) (w : World) :
  let entries := InsertTransactionRecordParams.ledgerEntries p in
  let id := idAt (environment w) (randomDraws w) 32 in
  (entries = [] ->
   exists issues,
     insertTransactionRecord theDB p w = (Throw (ZodError issues), w)
     /\ In (mkIssue too_small ["ledgerEntries"]) issues)
  /\ (entries <> [] ->
      String.length (InsertTransactionRecordParams.sqlTransactionId p) = 32%nat ->
      envReady (environment w) = true ->
      exists c,
        newEntries w (snd (insertTransactionRecord theDB p w))
        = [mkEntry InsertTransactionRecord c
             (rdsResponse (environment w) (rdsLog w) c)]
        /\ batchSets c
           = map (fun ledgerEntry =>
                    [ mkParam "transactionId" (blob (Buffer_from_hex id));
                      mkParam "ledgerId" (blob (Buffer_from_hex ledgerEntry)) ])
                 entries
        /\ List.length (batchSets c) = List.length entries
        /\ fst (insertTransactionRecord theDB p w)
           = match rdsResponse (environment w) (rdsLog w) c with
             | None => Normal id
             | Some x => Throw x
             end).
Proof.
  cbv zeta. change (insertTransactionRecord theDB)
    with (db_insertTransactionRecord genId).
  split.
  - intros Hnil.
    assert (InsertTransactionRecordParamsSchema [] p <> []) as Hne
        by (unfold InsertTransactionRecordParamsSchema; rewrite Hnil;
            discriminate).
    rewrite (db_insertTransactionRecord_invalid p w Hne).
    eexists. split; [reflexivity|].
    unfold InsertTransactionRecordParamsSchema. rewrite Hnil. left. reflexivity.
  - intros Hne Hlen Hready.
    assert (InsertTransactionRecordParamsSchema [] p = []) as Hvalid.
    { unfold InsertTransactionRecordParamsSchema.
      rewrite (z_string_length_ok _ _ Hlen), app_nil_r.
      destruct (InsertTransactionRecordParams.ledgerEntries p);
        [congruence | reflexivity]. }
    rewrite (db_insertTransactionRecord_run p w Hvalid Hready). unfold settle.
    cbn [fst snd]. eexists. split; [apply newEntries_app; reflexivity|].
    split; [reflexivity|]. split; [apply length_map | reflexivity].
Qed.

Lemma transaction_record_batch_witness :
  (exists issues,
     insertTransactionRecord theDB
       (InsertTransactionRecordParams.mk [] SQL_TRANSACTION_ID) calmWorld
     = (Throw (ZodError issues), calmWorld)
     /\ In (mkIssue too_small ["ledgerEntries"]) issues)
  /\ exists c,
       newEntries calmWorld (snd (insertTransactionRecord theDB transactionRecord
                                    calmWorld))
       = [mkEntry InsertTransactionRecord c None]
       /\ List.length (batchSets c) = 2%nat.
Proof.
  split.
  - exact (proj1 (transaction_record_batch_follows_the_list
                    (InsertTransactionRecordParams.mk [] SQL_TRANSACTION_ID)
                    calmWorld) eq_refl).
  - destruct (proj2 (transaction_record_batch_follows_the_list transactionRecord
                       calmWorld))
      as (c & Hc & _ & Hl & _);
      [discriminate | reflexivity | reflexivity |].
    exists c. split; [exact Hc | exact Hl].
Defined.

(** ** The scope token in the schemas of the writers *)

Lemma path_z_string (p : list string) (s : string) : map path (z_string p s) = [].
Proof. reflexivity. Qed.

Lemma path_z_array_string_nonempty (p : list string) (l : list string) :
  map path (z_array_string_nonempty p l)
  = offending (fun l => negb (Nat.eqb (List.length l) 0)) p l.
Proof. destruct l; reflexivity. Qed.

Ltac schema_paths :=
  cbn [app]; rewrite ?map_app;
  rewrite ?path_z_string_length, ?path_z_number, ?path_z_number_nonnegative,
    ?path_z_nativeEnum, ?path_z_string, ?path_z_array_string_nonempty;
  rewrite ?in_app_iff, ?in_offending; cbn [In].

Ltac named_iff :=
  split;
  [ let H := fresh in
    intros H; repeat (destruct H as [H|H]); try contradiction;
    let E := fresh in let F := fresh in
    destruct H as [E F]; first [discriminate E | exact F]
  | tauto ].

Ltac never_named :=
  let H := fresh in
  intros H; repeat (destruct H as [H|H]); try contradiction;
  let E := fresh in destruct H as [E _]; discriminate E.

(** X6. Four of the five writers raise an issue at [sqlTransactionId]
    exactly when the scope token does not have 32 characters; the
    ledger-entry writer never raises one: with identifiers of 32 characters
    and numbers for its amount and interaction type it calls the service
    under whatever token it was given. *)
Theorem scope_token_is_checked_by_all_writers_but_the_ledger_entry_one :
  (forall p,
     In ["sqlTransactionId"] (map path (InsertPaymentParamsSchema [] p))
     <-> String.length (InsertPaymentParams.sqlTransactionId p) <> 32%nat)
  /\ (forall p,
        In ["sqlTransactionId"] (map path (InsertFedNowPaymentParamsSchema [] p))
        <-> String.length (InsertFedNowPaymentParams.sqlTransactionId p)
            <> 32%nat)
  /\ (forall p,
        In ["sqlTransactionId"]
           (map path (InsertPromotionLedgerEntryParamsSchema [] p))
        <-> String.length (InsertPromotionLedgerEntryParams.sqlTransactionId p)
            <> 32%nat)
  /\ (forall p,
        In ["sqlTransactionId"]
           (map path (InsertTransactionRecordParamsSchema [] p))
        <-> String.length (InsertTransactionRecordParams.sqlTransactionId p)
            <> 32%nat)
  /\ (forall p,
        ~ In ["sqlTransactionId"] (map path (InsertLedgerEntryParamsSchema [] p)))
  /\ (forall p w,
        String.length (InsertLedgerEntryParams.payerId p) = 32%nat ->
        String.length (InsertLedgerEntryParams.payeeId p) = 32%nat ->
        String.length (InsertLedgerEntryParams.developerId p) = 32%nat ->
        isNaN (InsertLedgerEntryParams.amount p) = false ->
        isNaN (InsertLedgerEntryParams.interactionTypeId p) = false ->
        envReady (environment w) = true ->
        exists en,
          newEntries w (snd (insertLedgerEntry theDB p w)) = [en]
          /\ callTransactionId (call en)
             = InsertLedgerEntryParams.sqlTransactionId p).
Proof.
  repeat match goal with |- _ /\ _ => split end.
  - intros p. unfold InsertPaymentParamsSchema. schema_paths.
    rewrite <- has32_false. named_iff.
  - intros p. unfold InsertFedNowPaymentParamsSchema. schema_paths.
    rewrite <- has32_false. named_iff.
  - intros p. unfold InsertPromotionLedgerEntryParamsSchema. schema_paths.
    rewrite <- has32_false. named_iff.
  - intros p. unfold InsertTransactionRecordParamsSchema. schema_paths.
    rewrite <- has32_false. named_iff.
  - intros p. unfold InsertLedgerEntryParamsSchema. schema_paths. never_named.
  - intros p w H1 H2 H3 H4 H5 Hready.
    assert (InsertLedgerEntryParamsSchema [] p = []) as Hvalid
        by (unfold InsertLedgerEntryParamsSchema; schema_nil; assumption).
    change (insertLedgerEntry theDB) with (db_insertLedgerEntry genId).
    rewrite (db_insertLedgerEntry_run p w Hvalid Hready). unfold settle.
    cbn [snd]. eexists. split; [apply newEntries_app; reflexivity|].
    reflexivity.
Qed.

Lemma scope_token_witness :
  In ["sqlTransactionId"]
     (map path (InsertPaymentParamsSchema []
                  (InsertPaymentParams.mk PAYER_ID PAYEE_ID DEVELOPER_ID (num 100)
                     (num 1) PaymentMethod.Card "short")))
  /\ exists en,
       newEntries calmWorld
         (snd (insertLedgerEntry theDB
                 (InsertLedgerEntryParams.mk PAYER_ID PAYEE_ID DEVELOPER_ID
                    (num 100) (num 1) "short") calmWorld)) = [en]
       /\ callTransactionId (call en) = "short".
Proof.
  destruct scope_token_is_checked_by_all_writers_but_the_ledger_entry_one
    as (Hpay & _ & _ & _ & _ & Hled).
  split.
  - apply Hpay. vm_compute. discriminate.
  - apply (Hled (InsertLedgerEntryParams.mk PAYER_ID PAYEE_ID DEVELOPER_ID
                   (num 100) (num 1) "short") calmWorld); reflexivity.
Defined.

(** ** The order of the calls *)

Lemma executeBundle_frame (params : ExecuteStandardPTOperationsParams.t)
    (w : World) :
  rdsLog (snd (executeBundle params w))
  = rdsLog w ++ newEntries w (snd (executeBundle params w))
  /\ environment (snd (executeBundle params w)) = environment w.
Proof.
  destruct (ExecuteStandardPTOperationsParamsSchema [] params) eqn:Hvalid.
  - destruct (envReady (environment w)) eqn:Hready.
    + destruct (observe_inv (executeBundle_run params w Hvalid Hready))
        as (_ & Hl & He).
      rewrite issue_fst in Hl.
      rewrite (newEntries_app w _ _ Hl). auto.
    + destruct (observe_inv (executeBundle_unready params w Hvalid Hready))
        as (_ & Hl & He).
      rewrite (newEntries_app w _ []) by now rewrite app_nil_r.
      rewrite app_nil_r. auto.
  - unfold executeBundle.
    rewrite executeStandardPTOperations_invalid by (rewrite Hvalid; discriminate).
    cbn [snd]. rewrite (newEntries_app w w []) by now rewrite app_nil_r.
    rewrite app_nil_r. auto.
Qed.

(** The cases of a run on any input: the input rejected, or the cases of
    [run_cases]. *)
Ltac all_cases params w :=
  let Hvalid := fresh "Hvalid" in
  destruct (ExecuteStandardPTOperationsParamsSchema [] params) eqn:Hvalid;
  [ run_cases params w Hvalid
  | let Hne := fresh "Hne" in
    let Hl := fresh "Hwritten" in
    let Hr := fresh "Hresult" in
    assert (ExecuteStandardPTOperationsParamsSchema [] params <> []) as Hne
      by (rewrite Hvalid; discriminate);
    destruct (executeBundle_silent params w (or_introl Hne)) as [Hl Hr];
    rewrite ?Hl ].

Ltac distinct_operations :=
  repeat constructor; cbn [In]; intuition discriminate.

(** X7. Whatever the input and the world, a run only adds to the log of
    the service and leaves the environment alone, and the calls it adds come
    from the writers of the sequence - payment, settlement if its condition
    holds, ledger entry, promotion if its condition holds, transaction
    record - in that order, each at most once and none skipped: a run that
    stops has called a beginning of the sequence, a run that completes
    normally all of it, every call resolved. *)
Theorem calls_follow_the_sequence
    (params : ExecuteStandardPTOperationsParams.t) (w : World) :
  let run := executeBundle params w in
  let written := newEntries w (snd run) in
  rdsLog (snd run) = rdsLog w ++ written
  /\ environment (snd run) = environment w
  /\ NoDup (map issuer written)
  /\ exists rest,
       bundleOperations params = map issuer written ++ rest
       /\ (isNormal (fst run) = true -> rest = [] /\ Forall resolved written).
Proof.
  cbv zeta. destruct (executeBundle_frame params w) as [Hlog Henv].
  split; [exact Hlog|]. split; [exact Henv|]. clear Hlog Henv.
  unfold bundleOperations.
  all_cases params w; cbn [map issuer app];
    (split; [distinct_operations|]);
    eexists; (split; [reflexivity|]);
    first [ intros Hn; cbn [isNormal] in Hn; congruence
          | intros _; split; [reflexivity | repeat constructor] ].
Qed.

(** ** The causes of an abrupt completion *)

Lemma issue_failed (e : Environment) (plan : list (Operation * RdsCall)) :
  forall log x,
    snd (issue e plan log) = Some x ->
    exists earlier en,
      issued e plan log = earlier ++ [en]
      /\ outcome en = Some x /\ Forall resolved earlier.
Proof.
  induction plan as [|[op c] rest IH]; intros log x H; cbn [issue issued] in *.
  - discriminate H.
  - destruct (rdsResponse e log c) as [y|].
    + cbn in H. injection H as ->. exists [], (mkEntry op c (Some x)).
      split; [reflexivity|]. split; [reflexivity | constructor].
    + destruct (IH _ _ H) as (earlier & en & Heq & Hout & Hall).
      exists (mkEntry op c None :: earlier), en. rewrite Heq.
      split; [reflexivity|]. split; [exact Hout|].
      constructor; [reflexivity | exact Hall].
Qed.

(** X8. A run of the orchestrator over the real writers completes abruptly
    for one of three reasons only: the bundle schema rejected the input -
    the [ZodError] of its issues, the world untouched; or one of the three
    variables is not set - the [Error] of [getEnvVariable], nothing
    written; or the service rejected a call - its error, that call the last
    one of the run and every earlier one resolved.  In particular no writer
    rejects what the bundle schema accepted. *)
Theorem every_abrupt_completion_has_one_of_three_causes
    (params : ExecuteStandardPTOperationsParams.t) (w : World) (x : Exn) :
  fst (executeBundle params w) = Throw x ->
  let issues := ExecuteStandardPTOperationsParamsSchema [] params in
  let written := newEntries w (snd (executeBundle params w)) in
  (issues <> [] /\ x = ZodError issues /\ snd (executeBundle params w) = w)
  \/ (issues = [] /\ envReady (environment w) = false
      /\ x = Error ("Environment variable " ++ missingVariable (environment w)
                    ++ " not set")%string
      /\ written = [])
  \/ (issues = [] /\ envReady (environment w) = true
      /\ exists earlier en,
           written = earlier ++ [en]
           /\ outcome en = Some x /\ Forall resolved earlier).
Proof.
  intros H. cbv zeta.
  destruct (ExecuteStandardPTOperationsParamsSchema [] params) eqn:Hvalid.
  - right. destruct (envReady (environment w)) eqn:Hready.
    + right. split; [reflexivity|]. split; [reflexivity|].
      destruct (executeBundle_observed params w Hvalid Hready) as [Hr Hl].
      rewrite Hl. rewrite Hr in H.
      destruct (snd (issue (environment w) (bundlePlan params w) (rdsLog w)))
        as [y|] eqn:Hs; [|discriminate H].
      injection H as ->. exact (issue_failed _ _ _ Hs).
    + left. split; [reflexivity|]. split; [reflexivity|].
      destruct (observe_inv (executeBundle_unready params w Hvalid Hready))
        as (Hr & Hl & _).
      split; [congruence|]. apply newEntries_app. now rewrite Hl, app_nil_r.
  - left. unfold executeBundle in *.
    rewrite executeStandardPTOperations_invalid in *
      by (rewrite Hvalid; discriminate).
    rewrite Hvalid in H. cbn [fst snd] in *.
    split; [discriminate|]. split; [congruence | reflexivity].
Qed.

Lemma abrupt_completion_witness :
  exists earlier en,
    newEntries (failingWorld 1) (snd (executeBundle cardParams (failingWorld 1)))
    = earlier ++ [en]
    /\ outcome en = Some (Error "Database operation failed")
    /\ Forall resolved earlier.
Proof.
  destruct (@every_abrupt_completion_has_one_of_three_causes cardParams
              (failingWorld 1) (Error "Database operation failed") eq_refl)
    as [(H & _)|[(_ & H & _)|(_ & _ & H)]].
  - exfalso. apply H. reflexivity.
  - discriminate H.
  - exact H.
Defined.

(** ** Runs that the service does not interrupt *)

Ltac rejected_by_accepting Hacc :=
  match goal with
  | H : rdsResponse _ _ _ = Some _ |- _ => rewrite Hacc in H; discriminate H
  end.

(** X9. On an input the bundle schema accepts, with the three variables set
    and a service that resolves every call, a run completes normally: it
    calls the whole sequence, three to five writers, and returns an
    [IdObject] whose three nullable members are identifiers and whose two
    optional members are present exactly under their conditions. *)
Theorem a_run_completes_when_every_call_is_resolved
    (params : ExecuteStandardPTOperationsParams.t) (w : World) :
  ExecuteStandardPTOperationsParamsSchema [] params = [] ->
  envReady (environment w) = true ->
  accepting (environment w) ->
  let fedNow :=
    fedNowCondition
      (ExecuteStandardPTOperationsParams.userPurchaseInformation params) in
  let promotion :=
    promotionCondition
      (ExecuteStandardPTOperationsParams.promotionInformation params) in
  let written := newEntries w (snd (executeBundle params w)) in
  exists idObj,
    fst (executeBundle params w) = Normal idObj
    /\ map issuer written = bundleOperations params
    /\ Forall resolved written
    /\ List.length written
       = (3 + (if fedNow then 1 else 0) + (if promotion then 1 else 0))%nat
    /\ primaryPaymentID idObj <> null
    /\ customerLedgerEntryID idObj <> null
    /\ pursTransactionID idObj <> null
    /\ isSome (primaryFedNowPaymentID idObj) = fedNow
    /\ isSome (promotionLedgerEntryID idObj) = promotion.
Proof.
  intros Hvalid Hready Hacc. cbv zeta. unfold bundleOperations.
  run_cases params w Hvalid; try rejected_by_accepting Hacc;
    try congruence;
    eexists; (split; [reflexivity|]);
    cbn [primaryPaymentID customerLedgerEntryID pursTransactionID
         primaryFedNowPaymentID promotionLedgerEntryID isSome];
    repeat match goal with |- _ /\ _ => split end;
    try reflexivity; try discriminate; repeat constructor.
Qed.

Lemma calm_accepting : accepting calmEnvironment.
Proof. intros log c. reflexivity. Defined.

Lemma a_run_completes_witness :
  exists idObj,
    fst (executeBundle fedNowPromotionParams calmWorld) = Normal idObj
    /\ List.length (newEntries calmWorld
                      (snd (executeBundle fedNowPromotionParams calmWorld)))
       = 5%nat
    /\ isSome (primaryFedNowPaymentID idObj) = true
    /\ isSome (promotionLedgerEntryID idObj) = true.
Proof.
  destruct (@a_run_completes_when_every_call_is_resolved fedNowPromotionParams
              calmWorld eq_refl eq_refl calm_accepting)
    as (idObj & H1 & _ & _ & H4 & _ & _ & _ & H8 & H9).
  exists idObj. split; [exact H1|]. split; [exact H4|].
  split; [exact H8 | exact H9].
Defined.

(** ** What every call of a run carries *)

Lemma envReady_values (e : Environment) :
  envReady e = true ->
  processEnv e "DATABASE" = Some (envOf e "DATABASE")
  /\ processEnv e "SECRET_ARN" = Some (envOf e "SECRET_ARN")
  /\ processEnv e "CLUSTER_ARN" = Some (envOf e "CLUSTER_ARN").
Proof.
  intros H. destruct (envReady_inv _ H) as (H1 & H2 & H3). unfold envOf.
  destruct (processEnv e "DATABASE"); [|discriminate H1].
  destruct (processEnv e "SECRET_ARN"); [|discriminate H2].
  destruct (processEnv e "CLUSTER_ARN"); [|discriminate H3].
  auto.
Qed.

(** X10. Every call of a run on a valid input - single statement or batch -
    goes to the service under the transaction identifier of the input, with
    the values [process.env] holds for [DATABASE], [SECRET_ARN] and
    [CLUSTER_ARN], and with the one placeholder statement. *)
Theorem every_call_is_made_under_the_transaction_of_the_input
    (params : ExecuteStandardPTOperationsParams.t) (w : World) :
  ExecuteStandardPTOperationsParamsSchema [] params = [] ->
  forall en,
    In en (newEntries w (snd (executeBundle params w))) ->
    callTransactionId (call en)
    = ExecuteStandardPTOperationsParams.sqlTransactionId params
    /\ callSql (call en) = "INSERT ..."
    /\ exists database secretArn resourceArn,
         processEnv (environment w) "DATABASE" = Some database
         /\ processEnv (environment w) "SECRET_ARN" = Some secretArn
         /\ processEnv (environment w) "CLUSTER_ARN" = Some resourceArn
         /\ callTarget (call en) = (database, secretArn, resourceArn).
Proof.
  intros Hvalid.
  run_cases params w Hvalid;
    intros en Hin; cbn [In] in Hin;
    repeat (destruct Hin as [<-|Hin]); try contradiction;
    (split; [reflexivity|]); (split; [reflexivity|]);
    match goal with
    | H : envReady _ = true |- _ =>
        destruct (envReady_values _ H) as (H1 & H2 & H3)
    end;
    do 3 eexists; (split; [exact H1|]); (split; [exact H2|]);
    (split; [exact H3|]); reflexivity.
Qed.

Lemma every_call_witness :
  callTransactionId (call (nth 2 promotionRun rejectedLedgerEntry))
  = SQL_TRANSACTION_ID.
Proof.
  apply (@every_call_is_made_under_the_transaction_of_the_input
           cardPromotionParams calmWorld eq_refl
           (nth 2 promotionRun rejectedLedgerEntry)).
  vm_compute. do 2 right. left. reflexivity.
Defined.

(** X11. The payment and the primary ledger entry of a run describe the
    same movement: both carry the payer, the payee, the developer and the
    interaction type of the purchase, and the amount of the purchase - the
    payment as [paymentAmount], the ledger entry as [amount]. *)
Theorem payment_and_ledger_entry_agree
    (params : ExecuteStandardPTOperationsParams.t) (w : World) :
  ExecuteStandardPTOperationsParamsSchema [] params = [] ->
  let u := ExecuteStandardPTOperationsParams.userPurchaseInformation params in
  forall pay led,
    In pay (newEntries w (snd (executeBundle params w))) ->
    In led (newEntries w (snd (executeBundle params w))) ->
    issuer pay = InsertPayment -> issuer led = InsertLedgerEntry ->
    (forall n id,
       In (n, id) [ ("payerId", UserPurchaseInformation.payerId u);
                    ("payeeId", UserPurchaseInformation.payeeId u);
                    ("developerId", UserPurchaseInformation.developerId u) ] ->
       callParam n (call pay) = Some (blob (Buffer_from_hex id))
       /\ callParam n (call led) = Some (blob (Buffer_from_hex id)))
    /\ callParam "interactionTypeId" (call pay)
       = Some (double (UserPurchaseInformation.interactionTypeId u))
    /\ callParam "interactionTypeId" (call led)
       = Some (double (UserPurchaseInformation.interactionTypeId u))
    /\ callParam "paymentAmount" (call pay)
       = Some (double (UserPurchaseInformation.amount u))
    /\ callParam "amount" (call led)
       = Some (double (UserPurchaseInformation.amount u)).
Proof.
  intros Hvalid. cbv zeta.
  run_cases params w Hvalid;
    intros pay led Hpay Hled; cbn [In] in Hpay, Hled;
    repeat (destruct Hpay as [<-|Hpay]); try contradiction;
    repeat (destruct Hled as [<-|Hled]); try contradiction;
    intros Hi Hj; try discriminate Hi; try discriminate Hj;
    (split; [|repeat split; reflexivity]);
    intros n id Hn; cbn [In] in Hn;
    repeat (destruct Hn as [Hn|Hn]); try contradiction;
    injection Hn as <- <-; split; reflexivity.
Qed.

Lemma payment_and_ledger_entry_witness :
  callParam "paymentAmount" (call (nth 0 promotionRun rejectedLedgerEntry))
  = Some (double (num 100))
  /\ callParam "amount" (call (nth 1 promotionRun rejectedLedgerEntry))
     = Some (double (num 100)).
Proof.
  destruct (@payment_and_ledger_entry_agree cardPromotionParams calmWorld eq_refl
              (nth 0 promotionRun rejectedLedgerEntry)
              (nth 1 promotionRun rejectedLedgerEntry))
    as (_ & _ & _ & H1 & H2).
  - vm_compute. left. reflexivity.
  - vm_compute. right. left. reflexivity.
  - reflexivity.
  - reflexivity.
  - split; [exact H1 | exact H2].
Defined.

(** ** Pending payments and settlement records *)

Lemma fedNowCondition_pending (params : ExecuteStandardPTOperationsParams.t) :
  ExecuteStandardPTOperationsParamsSchema [] params = [] ->
  isPending (InsertPaymentParams.paymentMethod (paymentArgs params))
            (InsertPaymentParams.amount (paymentArgs params)) = true ->
  negb (num_eqb (InsertPaymentParams.paymentMethod (paymentArgs params))
                PaymentMethod.FedNow)
  || num_eqb (InsertPaymentParams.amount (paymentArgs params)) (num 0) = false.
Proof.
  intros Hvalid Hp.
  pose proof (pending_iff_not_complete _
                (paymentArgs_valid (bundle_valid _ Hvalid))) as H.
  rewrite Hp in H. now apply negb_true_iff.
Qed.

Ltac pending_payment params Hvalid Hp :=
  let Hq := fresh in
  pose proof
    (Hp : isPending (InsertPaymentParams.paymentMethod (paymentArgs params))
                    (InsertPaymentParams.amount (paymentArgs params)) = true)
    as Hq;
  cbn [call];
  rewrite paymentCall_paymentStatus, paymentCall_datePaid;
  rewrite (fedNowCondition_pending _ Hvalid Hq), Hq; split; reflexivity.

(** X12. A settlement record is never written beside a completed payment:
    whenever a run on a valid input calls the settlement writer, the payment
    it has written, and the service resolved, is PENDING with a null
    [datePaid], and the settlement carries the identifier of that payment. *)
Theorem a_settlement_goes_with_a_pending_payment
    (params : ExecuteStandardPTOperationsParams.t) (w : World) :
  ExecuteStandardPTOperationsParamsSchema [] params = [] ->
  let written := newEntries w (snd (executeBundle params w)) in
  forall fed,
    In fed written -> issuer fed = InsertFedNowPayment ->
    exists pay,
      entriesOf InsertPayment written = [pay]
      /\ outcome pay = None
      /\ callParam "paymentId" (call fed) = callParam "paymentId" (call pay)
      /\ callParam "paymentStatus" (call pay)
         = Some (double PaymentStatus.PENDING)
      /\ callParam "datePaid" (call pay)
         = Some (mkField None None None (Some true)).
Proof.
  intros Hvalid. cbv zeta.
  run_cases params w Hvalid;
    intros fed Hin; cbn [In] in Hin;
    repeat (destruct Hin as [<-|Hin]); try contradiction;
    intros Hi; try discriminate Hi;
    match goal with
    | H : fedNowCondition _ = true |- _ =>
        destruct (fedNowCondition_accounts _ H) as (a & b & _ & _ & Hp)
    end;
    eexists; entries;
    (split; [reflexivity|]); (split; [reflexivity|]); (split; [reflexivity|]);
    pending_payment params Hvalid Hp.
Qed.

Lemma a_settlement_witness :
  exists pay,
    entriesOf InsertPayment
      (newEntries calmWorld (snd (executeBundle fedNowParams calmWorld))) = [pay]
    /\ callParam "paymentStatus" (call pay)
       = Some (double PaymentStatus.PENDING).
Proof.
  destruct (@a_settlement_goes_with_a_pending_payment fedNowParams calmWorld
              eq_refl
              (nth 1 (rdsLog (snd (executeBundle fedNowParams calmWorld)))
                   rejectedLedgerEntry))
    as (pay & H1 & _ & _ & H4 & _).
  - vm_compute. right. left. reflexivity.
  - reflexivity.
  - exists pay. split; [exact H1 | exact H4].
Defined.

(** X13. The converse fails when an account identifier is missing: a FedNow
    purchase of a positive amount without the payer's or the payee's account
    is accepted, its payment is written PENDING with a null [datePaid], and
    no settlement record is written for it - the run calls no settlement
    writer and, if it completes, returns no [primaryFedNowPaymentID]. *)
Theorem a_pending_payment_without_account_has_no_settlement
    (params : ExecuteStandardPTOperationsParams.t) (w w1 : World)
    (paymentId : string) :
  ExecuteStandardPTOperationsParamsSchema [] params = [] ->
  let u := ExecuteStandardPTOperationsParams.userPurchaseInformation params in
  let written := newEntries w (snd (executeBundle params w)) in
  num_eqb (UserPurchaseInformation.paymentMethod u) PaymentMethod.FedNow = true ->
  num_gtb (UserPurchaseInformation.amount u) (num 0) = true ->
  UserPurchaseInformation.payerAccountId u = None
  \/ UserPurchaseInformation.payeeAccountId u = None ->
  insertPayment theDB (paymentArgs params) w = (Normal paymentId, w1) ->
  (exists pay,
     entriesOf InsertPayment written = [pay]
     /\ callParam "paymentStatus" (call pay)
        = Some (double PaymentStatus.PENDING)
     /\ callParam "datePaid" (call pay)
        = Some (mkField None None None (Some true)))
  /\ entriesOf InsertFedNowPayment written = []
  /\ (forall idObj, fst (executeBundle params w) = Normal idObj ->
        primaryFedNowPaymentID idObj = None).
Proof.
  intros Hvalid. cbv zeta. intros Hm Ha Hacc E.
  pose proof (paymentArgs_valid (bundle_valid _ Hvalid)) as Hpay.
  destruct (insertPayment_returned _ _ E Hpay) as (Hrd & R & ->).
  assert (isPending (InsertPaymentParams.paymentMethod (paymentArgs params))
                    (InsertPaymentParams.amount (paymentArgs params)) = true)
    as Hp.
  { change (num_eqb
              (UserPurchaseInformation.paymentMethod
                 (ExecuteStandardPTOperationsParams.userPurchaseInformation
                    params)) PaymentMethod.FedNow
            && num_gtb
                 (UserPurchaseInformation.amount
                    (ExecuteStandardPTOperationsParams.userPurchaseInformation
                       params)) (num 0) = true).
    now rewrite Hm, Ha. }
  assert (fedNowCondition
            (ExecuteStandardPTOperationsParams.userPurchaseInformation params)
          = false) as Hc.
  { unfold fedNowCondition.
    destruct Hacc as [-> | ->]; cbn [isSome];
      rewrite ?andb_false_r; reflexivity. }
  run_cases params w Hvalid;
    try discriminate Hc; try discriminate R; try discriminate Hrd;
    (split; [eexists; entries; (split; [reflexivity|]);
             pending_payment params Hvalid Hp|]);
    (split; [reflexivity|]);
    intros idObj Hn;
    first [discriminate Hn | injection Hn as <-; reflexivity].
Qed.

Lemma a_pending_payment_witness :
  entriesOf InsertFedNowPayment
    (newEntries calmWorld (snd (executeBundle fedNowWithoutAccount calmWorld)))
  = []
  /\ exists pay,
       entriesOf InsertPayment
         (newEntries calmWorld
            (snd (executeBundle fedNowWithoutAccount calmWorld))) = [pay]
       /\ callParam "paymentStatus" (call pay)
          = Some (double PaymentStatus.PENDING).
Proof.
  destruct (@a_pending_payment_without_account_has_no_settlement
              fedNowWithoutAccount calmWorld
              (snd (insertPayment theDB (paymentArgs fedNowWithoutAccount)
                      calmWorld))
              (idAt calmEnvironment 0 32)
              eq_refl eq_refl eq_refl (or_intror eq_refl))
    as ((pay & H1 & H2 & _) & H3 & _).
  - vm_compute. reflexivity.
  - split; [exact H3|]. exists pay. split; [exact H1 | exact H2].
Defined.

(** ** The identifiers a run returns *)

(** X14. Every identifier in the [IdObject] of a run that completes
    normally is a string of 32 lowercase hexadecimal digits, as the schemas
    of the writers require of an identifier they are given. *)
Theorem returned_identifiers_have_32_lowercase_hex_digits
    (params : ExecuteStandardPTOperationsParams.t) (w : World)
    (idObj : IdObject) :
  fst (executeBundle params w) = Normal idObj ->
  let wellFormed (id : string) :=
    String.length id = 32%nat /\ isLowerHexString id = true in
  (exists id, primaryPaymentID idObj = str id /\ wellFormed id)
  /\ (exists id, customerLedgerEntryID idObj = str id /\ wellFormed id)
  /\ (exists id, pursTransactionID idObj = str id /\ wellFormed id)
  /\ (forall id, primaryFedNowPaymentID idObj = Some id -> wellFormed id)
  /\ (forall id, promotionLedgerEntryID idObj = Some id -> wellFormed id).
Proof.
  intros H. cbv zeta.
  destruct (ExecuteStandardPTOperationsParamsSchema [] params) eqn:Hvalid;
    [destruct (envReady (environment w)) eqn:Hready|].
  - destruct (executeBundle_observed params w Hvalid Hready) as [Hr _].
    rewrite Hr in H.
    destruct (snd (issue (environment w) (bundlePlan params w) (rdsLog w)));
      [discriminate H|].
    injection H as <-. unfold bundleResult.
    cbn [primaryPaymentID customerLedgerEntryID pursTransactionID
         primaryFedNowPaymentID promotionLedgerEntryID].
    repeat match goal with |- _ /\ _ => split end;
      try (eexists; split; [reflexivity|]; split;
           [apply idAt_length | apply idAt_lowerHex]).
    + intros id Hid.
      destruct (fedNowCondition _); [|discriminate Hid].
      injection Hid as <-. split; [apply idAt_length | apply idAt_lowerHex].
    + intros id Hid.
      destruct (promotionCondition _); [|discriminate Hid].
      injection Hid as <-. split; [apply idAt_length | apply idAt_lowerHex].
  - destruct (executeBundle_silent params w (or_intror Hready)) as [_ Hn].
    rewrite H in Hn. discriminate Hn.
  - assert (ExecuteStandardPTOperationsParamsSchema [] params <> []) as Hne
        by (rewrite Hvalid; discriminate).
    destruct (executeBundle_silent params w (or_introl Hne)) as [_ Hn].
    rewrite H in Hn. discriminate Hn.
Qed.

Lemma returned_identifiers_witness :
  exists id,
    primaryPaymentID
      (mkIdObject (str (idAt calmEnvironment 0 32)) (str (idAt calmEnvironment 32 32))
         (str (idAt calmEnvironment 64 32)) None None) = str id
    /\ String.length id = 32%nat /\ isLowerHexString id = true.
Proof.
  refine (proj1 (@returned_identifiers_have_32_lowercase_hex_digits cardParams
                   calmWorld
                   (mkIdObject (str (idAt calmEnvironment 0 32))
                      (str (idAt calmEnvironment 32 32))
                      (str (idAt calmEnvironment 64 32)) None None) _)).
  vm_compute. reflexivity.
Defined.

(** ** Abrupt completions over any writers *)

(** The next writer of the sequence returned; if it threw, the run stopped
    there. *)
Ltac returned_or_stopped H f id w' E op :=
  unfold bind at 1 in H;
  match type of H with
  | context [f ?a ?w] =>
      destruct (f a w) as [[id|?] w'] eqn:E;
      [ | injection H as <- <-; exists op;
          split;
          [ cbn [app In]; repeat first [left; reflexivity | right]
          | cbn [stoppedAt]; eauto 6 using nil_cons ] ]
  end.

(** X15. Whatever the writers are, a run on an input the bundle schema
    accepts that completes abruptly has been stopped by one writer of its
    sequence: the run throws what that writer threw, unchanged, and ends in
    the world that writer left, so that no writer was called after it. *)
Theorem an_abrupt_run_was_stopped_by_one_of_its_writers
    (db : DB) (params : ExecuteStandardPTOperationsParams.t)
    (w w' : World) (x : Exn) :
  ExecuteStandardPTOperationsParamsSchema [] params = [] ->
  executeStandardPTOperations db params w = (Throw x, w') ->
  exists op, In op (bundleOperations params) /\ stoppedAt db params w w' x op.
Proof.
  intros Hvalid H. unfold executeStandardPTOperations in H.
  unfold bind at 1, parse in H. rewrite Hvalid in H.
  unfold ret at 1 in H. cbv zeta in H. unfold bundleOperations.
  returned_or_stopped H (insertPayment db) paymentId w1 E1 InsertPayment.
  unfold bind at 1 in H. rewrite fedNow_branch in H.
  destruct (fedNowCondition
              (ExecuteStandardPTOperationsParams.userPurchaseInformation params));
    [ returned_or_stopped H (insertFedNowPayment db) fedNowPaymentId w2 E2
        InsertFedNowPayment
    | ];
    unfold ret at 1 in H;
    returned_or_stopped H (insertLedgerEntry db) ledgerId w3 E3
      InsertLedgerEntry;
    unfold bind at 1 in H; rewrite promotion_branch in H;
    (destruct (promotionCondition
                 (ExecuteStandardPTOperationsParams.promotionInformation params));
     [ returned_or_stopped H (insertPromotionLedgerEntry db) promotionLedgerId
         w4 E4 InsertPromotionLedgerEntry
     | ]);
    unfold ret at 1 in H; cbn [fst snd app] in H;
    returned_or_stopped H (insertTransactionRecord db) pursTransactionId w5 E5
      InsertTransactionRecord;
    discriminate H.
Qed.

Lemma an_abrupt_run_witness :
  exists op,
    In op (bundleOperations cardParams)
    /\ stoppedAt brokenLedgerDB cardParams calmWorld calmWorld
         (Error "Database operation failed") op.
Proof.
  exact (@an_abrupt_run_was_stopped_by_one_of_its_writers brokenLedgerDB
           cardParams calmWorld calmWorld (Error "Database operation failed")
           eq_refl eq_refl).
Defined.

(** ** The contract of a writer *)

Ltac wrote lemma p w Hvalid Hready :=
  rewrite (lemma p w Hvalid Hready); unfold settle, wroteUnder; cbn [fst snd];
  do 2 eexists; split; [apply newEntries_app; reflexivity|];
  split; [apply idAt_length|]; split; reflexivity.

(** X16. Each of the five writers, given parameters its schema accepts and
    the three variables, calls the service exactly once, and the identifier
    it returns when the call is resolved is the one it has written as the
    key of the record - [paymentId], [fedNowPaymentId], [ledgerId],
    [ledgerId], and the [transactionId] of the first set of the batch; when
    the call is rejected it throws the error of the service instead. *)
Theorem a_writer_returns_the_key_it_wrote (w : World) :
  envReady (environment w) = true ->
  (forall p, InsertPaymentParamsSchema [] p = [] ->
     wroteUnder InsertPayment (callParam "paymentId") w
       (insertPayment theDB p w))
  /\ (forall p, InsertFedNowPaymentParamsSchema [] p = [] ->
        wroteUnder InsertFedNowPayment (callParam "fedNowPaymentId") w
          (insertFedNowPayment theDB p w))
  /\ (forall p, InsertLedgerEntryParamsSchema [] p = [] ->
        wroteUnder InsertLedgerEntry (callParam "ledgerId") w
          (insertLedgerEntry theDB p w))
  /\ (forall p, InsertPromotionLedgerEntryParamsSchema [] p = [] ->
        wroteUnder InsertPromotionLedgerEntry (callParam "ledgerId") w
          (insertPromotionLedgerEntry theDB p w))
  /\ (forall p, InsertTransactionRecordParamsSchema [] p = [] ->
        wroteUnder InsertTransactionRecord
          (fun c => param "transactionId" (hd [] (batchSets c))) w
          (insertTransactionRecord theDB p w)).
Proof.
  intros Hready.
  repeat match goal with |- _ /\ _ => split end; intros p Hvalid.
  - change (insertPayment theDB) with (db_insertPayment genId).
    wrote db_insertPayment_run p w Hvalid Hready.
  - change (insertFedNowPayment theDB) with (db_insertFedNowPayment genId).
    wrote db_insertFedNowPayment_run p w Hvalid Hready.
  - change (insertLedgerEntry theDB) with (db_insertLedgerEntry genId).
    wrote db_insertLedgerEntry_run p w Hvalid Hready.
  - change (insertPromotionLedgerEntry theDB)
      with (db_insertPromotionLedgerEntry genId).
    wrote db_insertPromotionLedgerEntry_run p w Hvalid Hready.
  - change (insertTransactionRecord theDB)
      with (db_insertTransactionRecord genId).
    assert (InsertTransactionRecordParams.ledgerEntries p <> []) as Hne.
    { intros Hnil. unfold InsertTransactionRecordParamsSchema in Hvalid.
      rewrite Hnil in Hvalid. discriminate Hvalid. }
    rewrite (db_insertTransactionRecord_run p w Hvalid Hready).
    unfold settle, wroteUnder. cbn [fst snd].
    do 2 eexists. split; [apply newEntries_app; reflexivity|].
    split; [apply idAt_length|]. split; [|reflexivity].
    unfold transactionCall, insertTransactionRecord_statementParams.
    cbn [batchSets BatchExecuteStatementRequest.parameterSets].
    destruct (InsertTransactionRecordParams.ledgerEntries p);
      [congruence | reflexivity].
Qed.

Lemma a_writer_returns_witness :
  wroteUnder InsertFedNowPayment (callParam "fedNowPaymentId") calmWorld
    (insertFedNowPayment theDB fedNowSettlement calmWorld)
  /\ wroteUnder InsertPromotionLedgerEntry (callParam "ledgerId") calmWorld
       (insertPromotionLedgerEntry theDB promotionEntry calmWorld).
Proof.
  destruct (@a_writer_returns_the_key_it_wrote calmWorld eq_refl)
    as (_ & H2 & _ & H4 & _).
  split; [exact (H2 fedNowSettlement eq_refl) | exact (H4 promotionEntry eq_refl)].
Defined.
